(** * nvidia-mon: the idle-window shutdown policy and the monitor loop

    A shallow embedding of [nvidia-mon.py] (a Python 2 script): the parsing of
    the [--shutdown] argument, [check_shutdown], [do_shutdown] and [main],
    followed by the properties of the specification that concern them.

    The script talks to four collaborators: the wall clock ([dt.now()]), the
    NVML library, [time.sleep] and [subprocess.call].  Their answers are not
    determined by the script, so they are supplied by an oracle [env] that
    answers the n-th external call with a value or with an exception; every
    external call, log record and line printed on stderr is appended to a
    trace.  A fatal provider error is an [NVMLError] answer, an interrupt a
    [KeyboardInterrupt] answer.

    Outside the embedding: [argparse] itself ([parse_args] starts from the
    [Namespace] it produced), the import guard of [pynvml], the formatting of
    log records (templates and their arguments are kept apart), and signals
    that end the process without unwinding the Python stack. *)

From Stdlib Require Import ZArith List String Ascii Bool Lia QArith.
From ExtLib Require Import Structures.Monad Structures.MonadExc.
Import ListNotations.
Import MonadNotation.
Local Open Scope monad_scope.
Local Open Scope string_scope.
Local Open Scope Z_scope.

(* ===================================================================== *)
(** ** The parts of Python's [datetime] module the script uses           *)
(* ===================================================================== *)

Module Datetime.

(** [datetime.time]: a naive time of day. *)
Record time := mk_time
  { hour : Z; minute : Z; second : Z; microsecond : Z }.

(** [datetime.datetime]: the date is kept as its proleptic Gregorian
    ordinal ([date.toordinal()], 1 for 0001-01-01), which orders dates
    exactly as (year, month, day) does. *)
Record datetime := mk_datetime { ordinal : Z; tod : time }.

(** [datetime.timedelta], normalised as Python keeps it:
    [0 <= seconds < 86400] and [0 <= microseconds < 1000000]. *)
Record timedelta := mk_timedelta
  { days : Z; seconds : Z; microseconds : Z }.

Definition MAXORDINAL : Z := 3652059.       (* date.max.toordinal() *)
Definition MAX_DELTA_DAYS : Z := 999999999.
Definition US_PER_SECOND : Z := 1000000.
Definition US_PER_DAY : Z := 86400 * US_PER_SECOND.

(** Lexicographic comparison of two tuples, as Python's [_cmp] on the
    field tuples. *)
Fixpoint cmp_tuple (xs ys : list Z) : comparison :=
  match xs, ys with
  | [], [] => Eq
  | [], _ :: _ => Lt
  | _ :: _, [] => Gt
  | x :: xs', y :: ys' =>
      match x ?= y with
      | Eq => cmp_tuple xs' ys'
      | c => c
      end
  end.

Definition time_fields (t : time) : list Z :=
  [hour t; minute t; second t; microsecond t].

Definition time_cmp (a b : time) : comparison :=
  cmp_tuple (time_fields a) (time_fields b).

(** [a < b] and [a > b] on times. *)
Definition time_lt (a b : time) : bool :=
  match time_cmp a b with Lt => true | _ => false end.
Definition time_gt (a b : time) : bool :=
  match time_cmp a b with Gt => true | _ => false end.

Definition datetime_cmp (a b : datetime) : comparison :=
  cmp_tuple (ordinal a :: time_fields (tod a))
            (ordinal b :: time_fields (tod b)).

(** [a < b] and [a >= b] on datetimes. *)
Definition datetime_lt (a b : datetime) : bool :=
  match datetime_cmp a b with Lt => true | _ => false end.
Definition datetime_ge (a b : datetime) : bool :=
  match datetime_cmp a b with Lt => false | _ => true end.

(** [time(h, m)]: [None] stands for the [ValueError] raised when a field
    is out of range. *)
Definition time_new (h m : Z) : option time :=
  if (0 <=? h) && (h <=? 23) && (0 <=? m) && (m <=? 59)
  then Some (mk_time h m 0 0)
  else None.

(** [timedelta(seconds=s)]: [None] stands for the [OverflowError] raised
    when the number of days is beyond 999999999 in magnitude. *)
Definition timedelta_of_seconds (s : Z) : option timedelta :=
  let d := s / 86400 in
  if Z.abs d <=? MAX_DELTA_DAYS
  then Some (mk_timedelta d (s mod 86400) 0)
  else None.

Definition time_to_us (t : time) : Z :=
  ((hour t * 60 + minute t) * 60 + second t) * US_PER_SECOND + microsecond t.

Definition time_of_us (us : Z) : time :=
  let s := us / US_PER_SECOND in
  mk_time (s / 3600) ((s / 60) mod 60) (s mod 60) (us mod US_PER_SECOND).

Definition timedelta_to_us (d : timedelta) : Z :=
  (days d * 86400 + seconds d) * US_PER_SECOND + microseconds d.

Definition timedelta_of_us (us : Z) : timedelta :=
  mk_timedelta (us / US_PER_DAY)
               ((us mod US_PER_DAY) / US_PER_SECOND)
               (us mod US_PER_SECOND).

(** [dt + delta]: [None] stands for the [OverflowError] ("date value out
    of range") raised when the result leaves years 1..9999. *)
Definition datetime_add (dt : datetime) (delta : timedelta) : option datetime :=
  let us := time_to_us (tod dt)
            + seconds delta * US_PER_SECOND + microseconds delta in
  let day := ordinal dt + days delta + us / US_PER_DAY in
  if (1 <=? day) && (day <=? MAXORDINAL)
  then Some (mk_datetime day (time_of_us (us mod US_PER_DAY)))
  else None.

(** [a - b] on datetimes, a timedelta. *)
Definition datetime_sub (a b : datetime) : timedelta :=
  timedelta_of_us ((ordinal a - ordinal b) * US_PER_DAY
                   + time_to_us (tod a) - time_to_us (tod b)).

(** [dt.time()] *)
Definition datetime_time (dt : datetime) : time := tod dt.

(** [bool(delta)]: a timedelta is false exactly when it is zero; and
    [delta > timedelta(0)]. *)
Definition timedelta_positive (d : timedelta) : bool :=
  0 <? timedelta_to_us d.

End Datetime.
Import Datetime.

(* ===================================================================== *)
(** ** The regular expression of the [--shutdown] argument               *)
(* ===================================================================== *)

(** Python's [re] is a backtracking matcher.  A pattern is modelled as a
    function from the text still to be read to the list of its possible
    matches there, most preferred first: each is the captured text and the
    rest of the input.  Sequencing tries the alternatives in that order, so
    the head of the final list is the match [re.match] reports.  The argument
    is a Python 2 [str], a byte string, on which [\d] is [[0-9]]. *)

Module Re.

Definition matcher (A : Type) : Type := string -> list (A * string).

Definition pure {A} (a : A) : matcher A := fun s => [(a, s)].

Definition seq {A B} (p : matcher A) (k : A -> matcher B) : matcher B :=
  fun s => flat_map (fun '(a, rest) => k a rest) (p s).

(** [\d] on a byte string *)
Definition is_digit (c : ascii) : bool :=
  ((48 <=? nat_of_ascii c) && (nat_of_ascii c <=? 57))%nat.

(** Greedy [\d{lo,hi}]: the longer captures come first. *)
Fixpoint digits (lo hi : nat) : matcher string :=
  fun s =>
    match hi with
    | O => match lo with O => [(EmptyString, s)] | S _ => [] end
    | S hi' =>
        ((match s with
          | String c s' =>
              if is_digit c
              then map (fun '(m, rest) => (String c m, rest))
                       (digits (Nat.pred lo) hi' s')
              else []
          | EmptyString => []
          end)
         ++ match lo with O => [(EmptyString, s)] | S _ => [] end)%list
    end.

(** Greedy [\d+]: no capture is longer than the text itself. *)
Definition digits1 : matcher string :=
  fun s => digits 1 (String.length s) s.

(** A literal character. *)
Definition lit (c : ascii) : matcher unit :=
  fun s =>
    match s with
    | String c' s' => if Ascii.eqb c c' then [(tt, s')] else []
    | EmptyString => []
    end.

(** [$] without [re.MULTILINE]: the end of the text, or just before a
    newline that ends the text. *)
Definition dollar : matcher unit :=
  fun s =>
    match s with
    | EmptyString => [(tt, s)]
    | String c EmptyString => if Ascii.eqb c "010"%char then [(tt, s)] else []
    | _ => []
    end.

(** [re.match(p, s)]: the first match of [p] at the start of [s]. *)
Definition re_match {A} (p : matcher A) (s : string) : option A :=
  match p s with
  | [] => None
  | (a, _) :: _ => Some a
  end.

End Re.

(** [m.groupdict()] of a match of [SHUT_ARGS_PATTERN]. *)
Record groupdict := mk_groupdict
  { start_h : string; start_min : string;
    end_h : string; end_min : string;
    g_idle_duration : string; g_idle_percent : string }.

Notation "x <~ p ;; k" := (Re.seq p (fun x => k))
  (at level 61, p at next level, right associativity, only parsing).

(** [SHUT_ARGS_PATTERN]:
    [(?P<start_h>\d{1,2}):(?P<start_min>\d{2})-]
    [(?P<end_h>\d{1,2}):(?P<end_min>\d{2}),]
    [(?P<idle_duration>\d+),(?P<idle_percent>\d{1,2})$] *)
Definition SHUT_ARGS_PATTERN : Re.matcher groupdict :=
  sh <~ Re.digits 1 2 ;; _ <~ Re.lit ":" ;; sm <~ Re.digits 2 2 ;;
  _ <~ Re.lit "-" ;;
  eh <~ Re.digits 1 2 ;; _ <~ Re.lit ":" ;; em <~ Re.digits 2 2 ;;
  _ <~ Re.lit "," ;;
  dur <~ Re.digits1 ;; _ <~ Re.lit "," ;;
  pct <~ Re.digits 1 2 ;; _ <~ Re.dollar ;;
  Re.pure (mk_groupdict sh sm eh em dur pct).

Definition SHUT_ARGS_DEFAULT : string := "1:30-9:00,30,10".

(** [int(s)] on a string of decimal digits. *)
Definition digit_value (c : ascii) : Z := Z.of_nat (nat_of_ascii c) - 48.

Fixpoint int_acc (acc : Z) (s : string) : Z :=
  match s with
  | EmptyString => acc
  | String c s' => int_acc (10 * acc + digit_value c) s'
  end.

Definition int (s : string) : Z := int_acc 0 s.

(* ===================================================================== *)
(** ** Values the script passes around                                   *)
(* ===================================================================== *)

(** The [Namespace] that [ArgumentParser.parse_args] returns.  [interval] is
    a Python float; only its passage to [sleep] matters here. *)
Record namespace := mk_namespace
  { interval : Q; gpu_index : Z; verbose : bool;
    shutdown : string; log_file : string }.

(** The dictionary [shut_args] once [parse_args] has filled it: the captured
    strings ([groups]; its [idle_duration] and [idle_percent] entries are
    overwritten by the typed values) and the four values computed from them. *)
Record shut_args := mk_shut_args
  { groups : groupdict;
    start : time; end_ : time;
    idle_duration : timedelta; idle_percent : Z }.

(** What [parse_args] returns: the integer 2, or the pair
    [(args, shut_args)]. *)
Inductive parse_result :=
| PR_int (n : Z)
| PR_pair (args : namespace) (sa : option shut_args).

(** [nvmlDeviceGetUtilizationRates]'s result and the dictionary built by
    [get_data]; ['gpu-idx'] is absent until [main] adds it. *)
Record utilization := mk_utilization { util_gpu : Z; util_memory : Z }.

Record data := mk_data
  { d_gpu : Z; d_mem : Z; d_temp : Z; d_fan : Z;
    d_time : datetime; d_gpu_idx : option Z }.

Definition handle := Z.

(* ===================================================================== *)
(** ** Effects: exceptions, external calls, the trace                    *)
(* ===================================================================== *)

Inductive exn :=
| NVMLError (code : Z)
| KeyboardInterrupt
| OSError
| IOError
| KeyError
| TypeError
| ValueError
| OverflowError.

(** [isinstance(e, Exception)]: [KeyboardInterrupt] derives from
    [BaseException] only. *)
Definition is_Exception (e : exn) : bool :=
  match e with
  | KeyboardInterrupt => false
  | _ => true
  end.

(** The calls that leave the script, indexed by the type of their answer. *)
Inductive call : Type -> Type :=
| DtNow : call datetime                                   (* dt.now() *)
| NvmlInit : call unit
| NvmlDeviceGetCount : call Z
| NvmlDeviceGetHandleByIndex (i : Z) : call handle
| NvmlDeviceGetUtilizationRates (h : handle) : call utilization
| NvmlDeviceGetTemperature (h : handle) : call Z
| NvmlDeviceGetFanSpeed (h : handle) : call Z
| NvmlShutdown : call unit
| Sleep (seconds : Q) : call unit                         (* time.sleep *)
| SubprocessCall (argv : list string) : call Z            (* subprocess.call *)
| FileHandler (path : string) : call unit.                (* opens the log file *)

(** An oracle answers the n-th external call with a value or an exception;
    an interrupt ([KeyboardInterrupt]) is an answer like any other. *)
Definition oracle : Type := nat -> forall T, call T -> T + exn.

Inductive level := DEBUG | INFO | WARNING.

(** Arguments of a format string, kept unformatted. *)
Inductive pyarg :=
| AStr (s : string)
| AInt (n : Z)
| ADatetime (t : datetime)
| ATimedelta (d : timedelta)
| AShutArgs (sa : option shut_args)
| AData (d : data)
| AShutStr (will_shut : option datetime).   (* [shutstr] of [print_data] *)

Inductive event :=
| EvCall {T : Type} (c : call T)
| EvLog (lvl : level) (template : string) (args : list pyarg)
| EvStderr (template : string) (args : list pyarg)
| EvSetLevel (lvl : level)
| EvAddHandler (file : option string)      (* [None]: a stream on stdout *)
| EvLoggingShutdown.

Record world := mk_world { w_seq : nat; w_trace : list event }.

(** The outcome of a computation: a value, an exception on its way up, or
    [Running] when the fuel of the [while True] loop ran out first. *)
Inductive res (A : Type) :=
| Done (a : A)
| Raised (e : exn)
| Running.
Arguments Done {A} a.
Arguments Raised {A} e.
Arguments Running {A}.

Definition M (A : Type) : Type := world -> res A * world.

#[export] Instance Monad_M : Monad M :=
  {| ret := fun A (a : A) w => (Done a, w);
     bind := fun A B (c : M A) (k : A -> M B) w =>
       match c w with
       | (Done a, w') => k a w'
       | (Raised e, w') => (Raised e, w')
       | (Running, w') => (Running, w')
       end |}.

#[export] Instance MonadExc_M : MonadExc exn M :=
  {| raise := fun A (e : exn) w => (Raised e, w);
     catch := fun A (c : M A) (h : exn -> M A) w =>
       match c w with
       | (Raised e, w') => h e w'
       | r => r
       end |}.

Definition emit (ev : event) : M unit :=
  fun w => (Done tt, mk_world (w_seq w) (w_trace w ++ [ev])).

Definition out_of_fuel {A} : M A := fun w => (Running, w).

(** [try: body finally: final] *)
Definition try_finally {A} (body : M A) (final : M unit) : M A :=
  fun w =>
    match body w with
    | (Running, w') => (Running, w')
    | (r, w') =>
        match final w' with
        | (Done _, w'') => (r, w'')
        | (Raised e, w'') => (Raised e, w'')
        | (Running, w'') => (Running, w'')
        end
    end.

(** [try: body except Exception: handler] *)
Definition try_except_Exception {A} (body : M A) (handler : exn -> M A) : M A :=
  catch body (fun e => if is_Exception e then handler e else raise e).

(** [None] of a [datetime] operation becomes the exception it stands for. *)
Definition or_raise {A} (e : exn) (o : option A) : M A :=
  match o with
  | Some a => ret a
  | None => raise e
  end.

(** log.debug / log.info / log.warning; print(..., file=sys.stderr) *)
Definition log (lvl : level) (template : string) (args : list pyarg) : M unit :=
  emit (EvLog lvl template args).

Definition print_stderr (template : string) (args : list pyarg) : M unit :=
  emit (EvStderr template args).

(* ===================================================================== *)
(** ** The script                                                        *)
(* ===================================================================== *)

Section Script.

Variable env : oracle.

(** An external call: the oracle's answer to call number [w_seq]. *)
Definition ext {T} (c : call T) : M T :=
  fun w =>
    let w' := mk_world (S (w_seq w)) (w_trace w ++ [EvCall c]) in
    match env (w_seq w) T c with
    | inl v => (Done v, w')
    | inr e => (Raised e, w')
    end.

(** [parse_args], from the [Namespace] that argparse produced on. *)
Definition parse_args (args : namespace) : M parse_result :=
  match shutdown args with
  | String _ _ =>
      match Re.re_match SHUT_ARGS_PATTERN (shutdown args) with
      | None =>
          print_stderr "failed to parse shutdown args {0!r}"
                       [AStr (shutdown args)] ;;
          ret (PR_int 2)
      | Some g =>
          t_start <- or_raise ValueError
                       (time_new (int (start_h g)) (int (start_min g))) ;;
          t_end <- or_raise ValueError
                     (time_new (int (end_h g)) (int (end_min g))) ;;
          dur <- or_raise OverflowError
                   (timedelta_of_seconds (60 * int (g_idle_duration g))) ;;
          ret (PR_pair args
                 (Some (mk_shut_args g t_start t_end dur
                                     (int (g_idle_percent g)))))
      end
  | EmptyString => ret (PR_pair args None)
  end.

Definition get_data (h : handle) : M data :=
  util <- ext (NvmlDeviceGetUtilizationRates h) ;;
  temp <- ext (NvmlDeviceGetTemperature h) ;;
  fan <- ext (NvmlDeviceGetFanSpeed h) ;;
  now <- ext DtNow ;;
  ret (mk_data (util_gpu util) (util_memory util) temp fan now None).

Definition print_data (d : data) (will_shut : option datetime) : M unit :=
  match d_gpu_idx d with
  | None => raise KeyError
  | Some _ =>
      log INFO ("{0[time]:%H:%M:%S}: gpu {0[gpu-idx]} at {0[gpu]:02d}%, "
                ++ "mem at {0[mem]:02d}%, temp {0[temp]:02d}C {1}")
          [AData d; AShutStr will_shut]
  end.

Definition do_shutdown : M unit :=
  _ <- ext (SubprocessCall ["systemctl"; "suspend"]) ;;
  ret tt.

Definition check_shutdown (sa : shut_args) (gpu_usage : Z)
           (planned_shut : option datetime) : M (option datetime) :=
  if gpu_usage >? idle_percent sa then
    log DEBUG "no shutdown, gpu busy" [] ;;
    match planned_shut with
    | Some _ => log INFO "GPU now busy again, shutdown aborted" []
    | None => ret tt
    end ;;
    ret None
  else
    now_full <- ext DtNow ;;
    let now := datetime_time now_full in
    if time_lt (start sa) (end_ sa)
       && negb (time_lt (start sa) now && time_lt now (end_ sa)) then
      log DEBUG "no shutdown, outside range1" [] ;;
      match planned_shut with
      | Some _ => log INFO "time now outside range1, shutdown aborted" []
      | None => ret tt
      end ;;
      ret None
    else if time_gt (start sa) (end_ sa)
            && (time_lt now (start sa) && time_gt now (end_ sa)) then
      log DEBUG "no shutdown, outside range2" [] ;;
      match planned_shut with
      | Some _ => log INFO "time now outside range2, shutdown aborted" []
      | None => ret tt
      end ;;
      ret None
    else
      (* now we are in shutdown range and gpu is not busy *)
      match planned_shut with
      | None =>
          log INFO "GPU now idle, will shutdown in {0} if this stays"
              [ATimedelta (idle_duration sa)] ;;
          t <- or_raise OverflowError
                 (datetime_add now_full (idle_duration sa)) ;;
          ret (Some t)
      | Some planned =>
          if datetime_lt now_full planned then
            log DEBUG "no shutdown, {0} left"
                [ATimedelta (datetime_sub planned now_full)] ;;
            ret (Some planned)
          else
            (* do shutdown *)
            log WARNING "been idle long enough, shutting down now" [] ;;
            do_shutdown ;;
            ret None        (* the function ends without a return *)
      end.

(** The [while True:] of [main]; one unit of fuel per iteration. *)
Fixpoint main_loop (fuel : nat) (args : namespace)
         (sa : option shut_args) (will_shut : option datetime) : M unit :=
  match fuel with
  | O => out_of_fuel
  | S fuel' =>
      h <- ext (NvmlDeviceGetHandleByIndex (gpu_index args)) ;;
      d <- get_data h ;;
      let d := mk_data (d_gpu d) (d_mem d) (d_temp d) (d_fan d) (d_time d)
                       (Some (gpu_index args)) in
      will_shut <- match sa with
                   | Some sa' => check_shutdown sa' (d_gpu d) will_shut
                   | None => ret will_shut
                   end ;;
      print_data d will_shut ;;
      ext (Sleep (interval args)) ;;
      main_loop fuel' args sa will_shut
  end.

Definition main (fuel : nat) (ns : namespace) : M Z :=
  r <- parse_args ns ;;
  '(args, sa) <- match r with
                 | PR_pair args sa => ret (args, sa)
                 | PR_int _ => raise TypeError   (* an int is not iterable *)
                 end ;;
  emit (EvSetLevel (if verbose args then DEBUG else INFO)) ;;
  match log_file args with
  | String _ _ =>
      ext (FileHandler (log_file args)) ;;
      emit (EvAddHandler (Some (log_file args)))
  | EmptyString => emit (EvAddHandler None)
  end ;;
  log INFO "start logging" [] ;;
  log DEBUG "shut args: {0}" [AShutArgs sa] ;;
  let will_shut : option datetime := None in
  try_finally
    (try_except_Exception
       (log DEBUG "initializing nvml" [] ;;
        ext NvmlInit ;;
        device_count <- ext NvmlDeviceGetCount ;;
        log DEBUG "found %i gpus" [AInt device_count] ;;
        main_loop fuel args sa will_shut)
       (fun e => raise e))
    (log DEBUG "shutting down nvml" [] ;;
     ext NvmlShutdown) ;;
  log DEBUG "done." [] ;;
  emit EvLoggingShutdown ;;
  ret 0.

(** [sys.exit(main())] from the point where [parser.parse_args] has returned
    the [Namespace]: the exit status of the process, [None] while it is
    still running.  An exception that reaches the top level of this Python 2
    script prints a traceback and ends the process with status 1.  What
    argparse does by itself before that point (status 0 for [--help],
    status 2 for a usage error) is not part of it. *)
Definition script (fuel : nat) (ns : namespace) (w : world)
  : option Z * world :=
  match main fuel ns w with
  | (Done n, w') => (Some n, w')
  | (Raised _, w') => (Some 1, w')
  | (Running, w') => (None, w')
  end.

End Script.

(* ===================================================================== *)
(** ** Vocabulary of the properties                                      *)
(* ===================================================================== *)

(** The events a computation appends to the trace of [w]. *)
Definition emitted {A} (c : M A) (w : world) : list event :=
  skipn (List.length (w_trace w)) (w_trace (snd (c w))).

(** The outcome of a computation started in [w]. *)
Definition outcome {A} (c : M A) (w : world) : res A := fst (c w).

Fixpoint argv_eqb (xs ys : list string) : bool :=
  match xs, ys with
  | [], [] => true
  | x :: xs', y :: ys' => String.eqb x y && argv_eqb xs' ys'
  | _, _ => false
  end.

(** The shutdown action: a call of [systemctl suspend]. *)
Definition is_suspend (ev : event) : bool :=
  match ev with
  | EvCall (SubprocessCall argv) => argv_eqb argv ["systemctl"; "suspend"]
  | _ => false
  end.

Definition is_nvmlShutdown (ev : event) : bool :=
  match ev with
  | EvCall NvmlShutdown => true
  | _ => false
  end.

Definition is_nvmlInit (ev : event) : bool :=
  match ev with
  | EvCall NvmlInit => true
  | _ => false
  end.

Definition count (p : event -> bool) (tr : list event) : nat :=
  List.length (filter p tr).

(** A debug record with a fixed text was logged. *)
Definition logged_debug (text : string) (tr : list event) : Prop :=
  In (EvLog DEBUG text []) tr.

(** The info record that tells a pending shutdown was dropped. *)
Definition abort_notice (planned_shut : option datetime) (text : string)
  : list event :=
  match planned_shut with
  | Some _ => [EvLog INFO text []]
  | None => []
  end.

(** The events of [in_range_step] after the clock reading. *)
Definition in_range_events (sa : shut_args) (planned_shut : option datetime)
           (now_full : datetime) : list event :=
  match planned_shut with
  | None =>
      [EvLog INFO "GPU now idle, will shutdown in {0} if this stays"
             [ATimedelta (idle_duration sa)]]
  | Some planned =>
      if datetime_lt now_full planned then
        [EvLog DEBUG "no shutdown, {0} left"
               [ATimedelta (datetime_sub planned now_full)]]
      else
        [EvLog WARNING "been idle long enough, shutting down now" [];
         EvCall (SubprocessCall ["systemctl"; "suspend"])]
  end.

(** The window test as the specification words it (section 4.2, step 2):
    a non-wrapping window holds the times strictly between its ends; a
    wrapping window excludes the times with [now < start] and [now > end];
    a window whose ends coincide excludes nothing. *)
Definition inside_window (s e now : time) : bool :=
  if time_lt s e then time_lt s now && time_lt now e
  else if time_gt s e then negb (time_lt now s && time_gt now e)
  else true.

(** What [check_shutdown] does once it is past the busy test and the two
    window tests (the lines after "now we are in shutdown range"), given the
    clock reading [now_full] it took as call number [w_seq w]. *)
Definition in_range_step (env : oracle) (sa : shut_args)
           (planned_shut : option datetime) (now_full : datetime) (w : world)
  : res (option datetime) * world :=
  let tr := (w_trace w ++ [EvCall DtNow])%list in
  match planned_shut with
  | None =>
      (match datetime_add now_full (idle_duration sa) with
       | Some t => Done (Some t)
       | None => Raised OverflowError
       end,
       mk_world (S (w_seq w))
         (tr ++ [EvLog INFO "GPU now idle, will shutdown in {0} if this stays"
                       [ATimedelta (idle_duration sa)]]))
  | Some planned =>
      if datetime_lt now_full planned then
        (Done (Some planned),
         mk_world (S (w_seq w))
           (tr ++ [EvLog DEBUG "no shutdown, {0} left"
                         [ATimedelta (datetime_sub planned now_full)]]))
      else
        (match env (S (w_seq w)) Z (SubprocessCall ["systemctl"; "suspend"]) with
         | inl _ => Done None
         | inr e => Raised e
         end,
         mk_world (S (S (w_seq w)))
           (tr ++ [EvLog WARNING "been idle long enough, shutting down now" [];
                   EvCall (SubprocessCall ["systemctl"; "suspend"])]))
  end.

(** [n] successive evaluations of the policy on the same usage, each fed the
    state the previous one returned, as the loop of [main] chains them. *)
Fixpoint check_shutdown_n (env : oracle) (n : nat) (sa : shut_args)
         (gpu_usage : Z) (state : option datetime) : M (option datetime) :=
  match n with
  | O => ret state
  | S n' =>
      state' <- check_shutdown env sa gpu_usage state ;;
      check_shutdown_n env n' sa gpu_usage state'
  end.

(** The events of one evaluation that keeps a pending shutdown. *)
Definition waiting_events (planned now_full : datetime) : list event :=
  [EvCall DtNow;
   EvLog DEBUG "no shutdown, {0} left"
         [ATimedelta (datetime_sub planned now_full)]].

(** Every character of [s] is a decimal digit. *)
Fixpoint all_digits (s : string) : bool :=
  match s with
  | EmptyString => true
  | String c s' => Re.is_digit c && all_digits s'
  end.

(** The invariant the data model of the specification puts on a window:
    [idleDuration > 0] and [idlePercentThreshold] in [0,100]. *)
Definition window_invariant (sa : shut_args) : bool :=
  timedelta_positive (idle_duration sa)
  && (0 <=? idle_percent sa) && (idle_percent sa <=? 100).

(** [parse_args] accepts the specification of [ns]: it returns the pair
    with a window in it. *)
Definition accepted (ns : namespace) (w : world) (sa : shut_args) : Prop :=
  outcome (parse_args ns) w = Done (PR_pair ns (Some sa)).

(** *** Vocabulary of the monitor loop *)

(** [c] only appends to the trace, and no event it appends satisfies [p]. *)
Definition avoids (p : event -> bool) {A} (c : M A) : Prop :=
  forall w, exists evs,
    w_trace (snd (c w)) = (w_trace w ++ evs)%list /\ count p evs = 0%nat.

Definition is_nvml_bracket (ev : event) : bool :=
  is_nvmlInit ev || is_nvmlShutdown ev.

(** The two events of the [finally] clause of [main]. *)
Definition teardown : list event :=
  [EvLog DEBUG "shutting down nvml" []; EvCall NvmlShutdown].

(** The discipline of the NVML session over the events of a run that has
    come to an end: either NVML was never initialised, or the run ends with
    the teardown, which is the only [nvmlShutdown] of the run, and an
    exception leaves [main]. *)
Definition session_closed (r : res Z) (evs : list event) : Prop :=
  r = Running
  \/ count is_nvml_bracket evs = 0%nat
  \/ exists pre e,
       evs = (pre ++ teardown)%list
       /\ count is_nvmlShutdown pre = 0%nat
       /\ r = Raised e.

Definition closes_session (c : M Z) : Prop :=
  forall w, exists evs,
    w_trace (snd (c w)) = (w_trace w ++ evs)%list
    /\ session_closed (fst (c w)) evs.

(** Call number [n] fails, whatever it is: a fatal provider error if that
    is a query, an interrupt if the exception is [KeyboardInterrupt]. *)
Definition fails_at (env : oracle) (n : nat) : Prop :=
  forall T (c : call T), exists e, env n T c = inr e.

(** [c] has no loop of its own: it never runs out of fuel. *)
Definition total {A} (c : M A) : Prop :=
  forall w, fst (c w) <> Running.

(** Started at or before call [n], [c] either raises or returns at or
    before call [n] (so not having made it). *)
Definition bounded (n : nat) {A} (c : M A) : Prop :=
  forall w, (w_seq w <= n)%nat ->
    match c w with
    | (Done _, w') => (w_seq w <= w_seq w' <= n)%nat
    | (Raised _, _) => True
    | (Running, _) => False
    end.

(** Started at most [m] calls before call [n], [c] comes to an end. *)
Definition finishes (n m : nat) {A} (c : M A) : Prop :=
  forall w, (w_seq w <= n)%nat -> (n - w_seq w < m)%nat ->
            fst (c w) <> Running.

(** *** Concrete collaborators, for the examples *)

(** An oracle whose clock is stopped at [now] and whose other calls all
    succeed: one GPU at [usage] percent. *)
Definition steady (now : datetime) (usage : Z) : oracle :=
  fun _ T c =>
    match c in call T return T + exn with
    | DtNow => inl now
    | NvmlInit => inl tt
    | NvmlDeviceGetCount => inl 1
    | NvmlDeviceGetHandleByIndex i => inl i
    | NvmlDeviceGetUtilizationRates _ => inl (mk_utilization usage 0)
    | NvmlDeviceGetTemperature _ => inl 40
    | NvmlDeviceGetFanSpeed _ => inl 30
    | NvmlShutdown => inl tt
    | Sleep _ => inl tt
    | SubprocessCall _ => inl 0
    | FileHandler _ => inl tt
    end.

(** As [steady], but call number [n] fails with [e] whatever it is. *)
Definition failing_at (n : nat) (e : exn) (now : datetime) (usage : Z) : oracle :=
  fun k T c => if Nat.eqb k n then inr e else steady now usage k T c.

Definition world0 : world := mk_world 0 [].

(** 02:00, 02:20 and 02:35 on day 739000, and the window of
    [SHUT_ARGS_DEFAULT]. *)
Definition at_time (h m : Z) : datetime := mk_datetime 739000 (mk_time h m 0 0).

Definition default_shut_args : shut_args :=
  mk_shut_args (mk_groupdict "1" "30" "9" "00" "30" "10")
               (mk_time 1 30 0 0) (mk_time 9 0 0 0)
               (mk_timedelta 0 1800 0) 10.

(** A window that spans midnight, 22:00-6:00, and one whose ends meet. *)
Definition night_shut_args : shut_args :=
  mk_shut_args (mk_groupdict "22" "00" "6" "00" "30" "10")
               (mk_time 22 0 0 0) (mk_time 6 0 0 0)
               (mk_timedelta 0 1800 0) 10.

Definition point_shut_args : shut_args :=
  mk_shut_args (mk_groupdict "3" "00" "3" "00" "30" "10")
               (mk_time 3 0 0 0) (mk_time 3 0 0 0)
               (mk_timedelta 0 1800 0) 10.

Definition default_namespace (spec : string) : namespace :=
  mk_namespace 1 0 false spec "".

(** The window that ["1:30-9:00,0,10"] is parsed to. *)
Definition zero_minutes_shut_args : shut_args :=
  mk_shut_args (mk_groupdict "1" "30" "9" "00" "0" "10")
               (mk_time 1 30 0 0) (mk_time 9 0 0 0)
               (mk_timedelta 0 0 0) 10.

(** *** Vocabulary of the further properties *)

Definition newline : string := String "010"%char EmptyString.

(** The six fields of a specification written out as
    [H:MM-H:MM,minutes,percent]. *)
Definition format_spec (g : groupdict) : string :=
  start_h g ++ ":" ++ start_min g ++ "-"
  ++ end_h g ++ ":" ++ end_min g ++ ","
  ++ g_idle_duration g ++ "," ++ g_idle_percent g.

Definition digits_between (lo hi : nat) (s : string) : bool :=
  all_digits s
  && Nat.leb lo (String.length s) && Nat.leb (String.length s) hi.

(** Every field is made of decimal digits, in the number the pattern
    asks for. *)
Definition well_formed (g : groupdict) : bool :=
  digits_between 1 2 (start_h g) && digits_between 2 2 (start_min g)
  && digits_between 1 2 (end_h g) && digits_between 2 2 (end_min g)
  && all_digits (g_idle_duration g)
  && Nat.leb 1 (String.length (g_idle_duration g))
  && digits_between 1 2 (g_idle_percent g).

(** The text to be read starts with something else than a digit. *)
Definition stops_digits (s : string) : bool :=
  match s with
  | EmptyString => true
  | String c _ => negb (Re.is_digit c)
  end.

(** A time of day as Python can hold one. *)
Definition valid_time (t : time) : bool :=
  (0 <=? hour t) && (hour t <? 24)
  && (0 <=? minute t) && (minute t <? 60)
  && (0 <=? second t) && (second t <? 60)
  && (0 <=? microsecond t) && (microsecond t <? 1000000).

Definition valid_datetime (dt : datetime) : bool :=
  (1 <=? ordinal dt) && (ordinal dt <=? MAXORDINAL) && valid_time (tod dt).

(** The ranges Python keeps the fields of a timedelta in. *)
Definition timedelta_normalized (d : timedelta) : bool :=
  (0 <=? seconds d) && (seconds d <? 86400)
  && (0 <=? microseconds d) && (microseconds d <? 1000000).

(** Microseconds since the start of day 0. *)
Definition datetime_to_us (dt : datetime) : Z :=
  ordinal dt * US_PER_DAY + time_to_us (tod dt).

(** The window that well-formed fields stand for, when their values are in
    range. *)
Definition window_of (g : groupdict) : shut_args :=
  mk_shut_args g
    (mk_time (int (start_h g)) (int (start_min g)) 0 0)
    (mk_time (int (end_h g)) (int (end_min g)) 0 0)
    (mk_timedelta (60 * int (g_idle_duration g) / 86400)
                  ((60 * int (g_idle_duration g)) mod 86400) 0)
    (int (g_idle_percent g)).

(** One of the three records that tell a pending shutdown was dropped. *)
Definition is_abort_notice (ev : event) : bool :=
  match ev with
  | EvLog INFO text [] =>
      String.eqb text "GPU now busy again, shutdown aborted"
      || String.eqb text "time now outside range1, shutdown aborted"
      || String.eqb text "time now outside range2, shutdown aborted"
  | _ => false
  end.

(** The record that announces a newly planned shutdown. *)
Definition is_arming (ev : event) : bool :=
  match ev with
  | EvLog INFO text [ATimedelta _] =>
      String.eqb text "GPU now idle, will shutdown in {0} if this stays"
  | _ => false
  end.

(** The events of the two exits for a time outside the window. *)
Definition outside_events (planned_shut : option datetime) (n : nat)
  : list event :=
  match n with
  | O => EvCall DtNow :: EvLog DEBUG "no shutdown, outside range1" []
         :: abort_notice planned_shut "time now outside range1, shutdown aborted"
  | S _ => EvCall DtNow :: EvLog DEBUG "no shutdown, outside range2" []
           :: abort_notice planned_shut "time now outside range2, shutdown aborted"
  end.

(** The events that plan, drop or carry out a shutdown. *)
Definition touches_arm (ev : event) : bool :=
  is_suspend ev || is_arming ev || is_abort_notice ev.

(** Reading a trace with one bit of memory, "a shutdown is planned": the
    arming record sets it, an abort notice clears it, and a suspend call is
    allowed only while it is set, and clears it.  [None] tells that a
    suspend call came while nothing was planned. *)
Definition arm_step (armed : bool) (ev : event) : option bool :=
  if is_suspend ev then (if armed then Some false else None)
  else if is_arming ev then Some true
  else if is_abort_notice ev then Some false
  else Some armed.

Fixpoint run_arm (armed : bool) (evs : list event) : option bool :=
  match evs with
  | [] => Some armed
  | ev :: evs' =>
      match arm_step armed ev with
      | Some armed' => run_arm armed' evs'
      | None => None
      end
  end.

(** Started with the bit at [armed], the events of [c] are read without
    fault, and [Q] holds of the outcome and the bit they leave. *)
Definition armed_run {A} (armed : bool) (c : M A)
           (Q : res A -> bool -> Prop) : Prop :=
  forall w, exists evs armed',
    w_trace (snd (c w)) = (w_trace w ++ evs)%list
    /\ run_arm armed evs = Some armed'
    /\ Q (fst (c w)) armed'.

(** A call into the NVML library. *)
Definition is_nvml_call (ev : event) : bool :=
  match ev with
  | EvCall NvmlInit => true
  | EvCall NvmlDeviceGetCount => true
  | EvCall (NvmlDeviceGetHandleByIndex _) => true
  | EvCall (NvmlDeviceGetUtilizationRates _) => true
  | EvCall (NvmlDeviceGetTemperature _) => true
  | EvCall (NvmlDeviceGetFanSpeed _) => true
  | EvCall NvmlShutdown => true
  | _ => false
  end.

(** The events of [c] start with [evs0], and none of those that follow
    satisfies [p]. *)
Definition starts_with (evs0 : list event) (p : event -> bool)
           {A} (c : M A) : Prop :=
  forall w, exists rest,
    w_trace (snd (c w)) = (w_trace w ++ evs0 ++ rest)%list
    /\ count p rest = 0%nat.

(** The two events that open the NVML session. *)
Definition startup : list event :=
  [EvLog DEBUG "initializing nvml" []; EvCall NvmlInit].

(** The events of a run make no NVML call before the session is opened,
    and open it at most once. *)
Definition session_opened_once (evs : list event) : Prop :=
  exists pre rest,
    evs = (pre ++ rest)%list
    /\ count is_nvml_call pre = 0%nat
    /\ (rest = []
        \/ exists rest',
             rest = (startup ++ rest')%list
             /\ count is_nvmlInit rest' = 0%nat).

(** The status line of [print_data], and a call of [sleep]. *)
Definition is_status (ev : event) : bool :=
  match ev with
  | EvLog INFO text [AData _; AShutStr _] =>
      String.eqb text
        ("{0[time]:%H:%M:%S}: gpu {0[gpu-idx]} at {0[gpu]:02d}%, "
         ++ "mem at {0[mem]:02d}%, temp {0[temp]:02d}C {1}")
  | _ => false
  end.

Definition is_sleep (ev : event) : bool :=
  match ev with
  | EvCall (Sleep _) => true
  | _ => false
  end.

Definition is_tick (ev : event) : bool := is_status ev || is_sleep ev.

(** [c] logs as many status lines as it makes calls of [sleep]. *)
Definition balanced {A} (c : M A) : Prop :=
  forall w, exists evs,
    w_trace (snd (c w)) = (w_trace w ++ evs)%list
    /\ count is_status evs = count is_sleep evs.




(** For a run that has ended in [w'] after opening the NVML session: if
    the last call, [nvmlShutdown], was answered with an exception, that
    exception is the outcome. *)
Definition teardown_error_wins (env : oracle) (r : res Z) (w' : world)
           (evs : list event) : Prop :=
  r = Running
  \/ count is_nvml_bracket evs = 0%nat
  \/ forall e', env (Nat.pred (w_seq w')) unit NvmlShutdown = inr e' ->
                r = Raised e'.

(** All six fields are made of decimal digits, however many. *)
Definition digit_fields (g : groupdict) : bool :=
  all_digits (start_h g) && all_digits (start_min g)
  && all_digits (end_h g) && all_digits (end_min g)
  && all_digits (g_idle_duration g) && all_digits (g_idle_percent g).

(** The statements after the [try] of [main]: the record "done." and
    [logging.shutdown()]. *)
Definition is_epilogue (ev : event) : bool :=
  match ev with
  | EvLog DEBUG text [] => String.eqb text "done."
  | EvLoggingShutdown => true
  | _ => false
  end.

(* ===================================================================== *)
(** ** Properties                                                        *)
(* ===================================================================== *)

(** *** Comparisons *)

Lemma cmp_tuple_refl (xs : list Z) : cmp_tuple xs xs = Eq.
Proof.
  induction xs as [|x xs IH]; simpl; [reflexivity|].
  now rewrite Z.compare_refl.
Qed.

Lemma time_lt_irrefl (t : time) : time_lt t t = false.
Proof. unfold time_lt, time_cmp. now rewrite cmp_tuple_refl. Qed.

Lemma time_gt_irrefl (t : time) : time_gt t t = false.
Proof. unfold time_gt, time_cmp. now rewrite cmp_tuple_refl. Qed.

Lemma time_lt_not_gt (a b : time) : time_lt a b = true -> time_gt a b = false.
Proof. unfold time_lt, time_gt. now destruct (time_cmp a b). Qed.

Lemma datetime_ge_lt (a b : datetime) : datetime_ge a b = negb (datetime_lt a b).
Proof. unfold datetime_ge, datetime_lt. now destruct (datetime_cmp a b). Qed.

(** *** The trace *)

Lemma emitted_app {A} (c : M A) (w : world) (r : res A) (n : nat) (evs : list event) :
  c w = (r, mk_world n (w_trace w ++ evs)) -> emitted c w = evs.
Proof.
  intros E. unfold emitted. rewrite E. simpl.
  rewrite skipn_app, skipn_all, Nat.sub_diag. reflexivity.
Qed.

Lemma emitted_eq {A} (c c' : M A) (w : world) :
  c w = c' w -> emitted c w = emitted c' w.
Proof. intros E. unfold emitted. now rewrite E. Qed.

Lemma outcome_eq {A} (c : M A) (w w' : world) (r : res A) :
  c w = (r, w') -> outcome c w = r.
Proof. intros E. unfold outcome. now rewrite E. Qed.

Lemma ext_ok (env : oracle) {T} (c : call T) (w : world) (v : T) :
  env (w_seq w) T c = inl v ->
  ext env c w = (Done v, mk_world (S (w_seq w)) (w_trace w ++ [EvCall c])).
Proof. intros E. unfold ext. now rewrite E. Qed.

Lemma ext_raised (env : oracle) {T} (c : call T) (w : world) (e : exn) :
  env (w_seq w) T c = inr e ->
  ext env c w = (Raised e, mk_world (S (w_seq w)) (w_trace w ++ [EvCall c])).
Proof. intros E. unfold ext. now rewrite E. Qed.

(** *** The three ways through [check_shutdown] *)

Section CheckShutdown.

Variable env : oracle.
Variable sa : shut_args.
Variable gpu_usage : Z.
Variable planned_shut : option datetime.
Variable w : world.

Lemma check_shutdown_busy :
  idle_percent sa < gpu_usage ->
  check_shutdown env sa gpu_usage planned_shut w =
  (Done None,
   mk_world (w_seq w)
     (w_trace w ++ EvLog DEBUG "no shutdown, gpu busy" []
                :: abort_notice planned_shut "GPU now busy again, shutdown aborted")).
Proof.
  intros H. unfold check_shutdown, abort_notice.
  apply Z.gtb_lt in H. rewrite H.
  destruct planned_shut; cbn; now rewrite <- ?app_assoc.
Qed.

(** From here on the GPU is idle and the clock answers [now_full]. *)
Variable now_full : datetime.
Hypothesis Hidle : gpu_usage <= idle_percent sa.
Hypothesis Hclock : env (w_seq w) datetime DtNow = inl now_full.

Let now := datetime_time now_full.

Lemma idle_test : (gpu_usage >? idle_percent sa) = false.
Proof. rewrite Z.gtb_ltb. apply Z.ltb_ge. exact Hidle. Qed.

Lemma check_shutdown_range1 :
  time_lt (start sa) (end_ sa) = true ->
  time_lt (start sa) now && time_lt now (end_ sa) = false ->
  check_shutdown env sa gpu_usage planned_shut w =
  (Done None,
   mk_world (S (w_seq w))
     (w_trace w ++ EvCall DtNow
                :: EvLog DEBUG "no shutdown, outside range1" []
                :: abort_notice planned_shut "time now outside range1, shutdown aborted")).
Proof.
  intros Hse Hout. unfold check_shutdown, abort_notice.
  rewrite idle_test. cbn. rewrite (ext_ok _ _ _ _ Hclock). fold now.
  rewrite Hse, Hout. cbn.
  destruct planned_shut; cbn; now rewrite <- ?app_assoc.
Qed.

Lemma check_shutdown_range2 :
  time_gt (start sa) (end_ sa) = true ->
  time_lt now (start sa) && time_gt now (end_ sa) = true ->
  check_shutdown env sa gpu_usage planned_shut w =
  (Done None,
   mk_world (S (w_seq w))
     (w_trace w ++ EvCall DtNow
                :: EvLog DEBUG "no shutdown, outside range2" []
                :: abort_notice planned_shut "time now outside range2, shutdown aborted")).
Proof.
  intros Hse Hout. unfold check_shutdown, abort_notice.
  rewrite idle_test. cbn. rewrite (ext_ok _ _ _ _ Hclock). fold now.
  assert (Hlt : time_lt (start sa) (end_ sa) = false).
  { unfold time_lt, time_gt in *. now destruct (time_cmp (start sa) (end_ sa)). }
  rewrite Hlt, Hse, Hout. cbn.
  destruct planned_shut; cbn; now rewrite <- ?app_assoc.
Qed.

Lemma check_shutdown_in_range :
  inside_window (start sa) (end_ sa) now = true ->
  check_shutdown env sa gpu_usage planned_shut w =
  in_range_step env sa planned_shut now_full w.
Proof.
  intros Hin. unfold check_shutdown, in_range_step.
  rewrite idle_test. cbn. rewrite (ext_ok _ _ _ _ Hclock). fold now.
  assert (Htests :
    time_lt (start sa) (end_ sa)
      && negb (time_lt (start sa) now && time_lt now (end_ sa)) = false
    /\ time_gt (start sa) (end_ sa)
         && (time_lt now (start sa) && time_gt now (end_ sa)) = false).
  { unfold inside_window in Hin.
    destruct (time_lt (start sa) (end_ sa)) eqn:L.
    - rewrite Hin, (time_lt_not_gt _ _ L). split; reflexivity.
    - split; [reflexivity|].
      destruct (time_gt (start sa) (end_ sa)); [|reflexivity].
      now apply negb_true_iff in Hin. }
  destruct Htests as [T1 T2]. rewrite T1, T2.
  destruct planned_shut as [planned|]; cbn.
  - destruct (datetime_lt now_full planned); cbn.
    + now rewrite <- ?app_assoc.
    + unfold ext. cbn.
      destruct (env (S (w_seq w)) Z (SubprocessCall ["systemctl"; "suspend"]));
        cbn; now rewrite <- ?app_assoc.
  - destruct (datetime_add now_full (idle_duration sa)); cbn;
      now rewrite <- ?app_assoc.
Qed.

End CheckShutdown.

Lemma in_range_step_emitted env sa planned now_full w :
  emitted (in_range_step env sa planned now_full) w
  = EvCall DtNow :: in_range_events sa planned now_full.
Proof.
  unfold in_range_step, in_range_events.
  destruct planned as [planned|]; [destruct (datetime_lt now_full planned)|];
    eapply emitted_app; rewrite <- app_assoc; reflexivity.
Qed.

Lemma in_range_not_outside sa planned now_full text :
  ~ logged_debug text (EvCall DtNow :: in_range_events sa planned now_full).
Proof.
  unfold logged_debug, in_range_events.
  destruct planned as [planned|]; [destruct (datetime_lt now_full planned)|];
    simpl; intuition discriminate.
Qed.

Lemma abort_notice_quiet planned text :
  count is_suspend (abort_notice planned text) = 0%nat.
Proof. now destruct planned. Qed.

(** Starting from [Inactive], one evaluation never suspends the machine. *)
Lemma check_shutdown_inactive_quiet env sa gpu_usage w :
  count is_suspend (emitted (check_shutdown env sa gpu_usage None) w) = 0%nat.
Proof.
  destruct (Z.lt_ge_cases (idle_percent sa) gpu_usage) as [Hbusy|Hidle].
  - erewrite emitted_app by (apply check_shutdown_busy; assumption).
    reflexivity.
  - destruct (env (w_seq w) datetime DtNow) as [now_full|e] eqn:Hclock.
    + destruct (inside_window (start sa) (end_ sa) (datetime_time now_full)) eqn:Hin.
      * rewrite (emitted_eq _ _ _
                   (check_shutdown_in_range env sa gpu_usage None w now_full
                                            Hidle Hclock Hin)).
        now rewrite in_range_step_emitted.
      * unfold inside_window in Hin.
        destruct (time_lt (start sa) (end_ sa)) eqn:L.
        -- erewrite emitted_app
             by (eapply check_shutdown_range1; eassumption).
           reflexivity.
        -- destruct (time_gt (start sa) (end_ sa)) eqn:G; [|discriminate].
           apply negb_false_iff in Hin.
           erewrite emitted_app
             by (eapply check_shutdown_range2; eassumption).
           reflexivity.
    + unfold emitted, check_shutdown.
      rewrite (idle_test sa gpu_usage Hidle). cbn.
      rewrite (ext_raised _ _ _ _ Hclock). simpl.
      rewrite skipn_app, skipn_all, Nat.sub_diag. reflexivity.
Qed.

(** *** The shutdown policy *)

(** C1: when a shutdown is pending, its planned time is reached
    ([now >= plannedTime]), the usage is at or below the idle threshold and
    the time of day is inside the window, one call of [check_shutdown]
    invokes the shutdown action exactly once: its events are the clock
    reading, the warning and one call of [systemctl suspend]. *)
Theorem C1_fires_exactly_once
  (env : oracle) (sa : shut_args) (gpu_usage : Z)
  (planned now_full : datetime) (w : world) :
  gpu_usage <= idle_percent sa ->
  env (w_seq w) datetime DtNow = inl now_full ->
  inside_window (start sa) (end_ sa) (datetime_time now_full) = true ->
  datetime_ge now_full planned = true ->
  emitted (check_shutdown env sa gpu_usage (Some planned)) w
  = [EvCall DtNow;
     EvLog WARNING "been idle long enough, shutting down now" [];
     EvCall (SubprocessCall ["systemctl"; "suspend"])]
  /\ count is_suspend
       (emitted (check_shutdown env sa gpu_usage (Some planned)) w) = 1%nat.
Proof.
  intros Hidle Hclock Hin Hge.
  rewrite (emitted_eq _ _ _
             (check_shutdown_in_range env sa gpu_usage (Some planned) w
                                      now_full Hidle Hclock Hin)).
  rewrite in_range_step_emitted. unfold in_range_events.
  rewrite datetime_ge_lt in Hge. apply negb_true_iff in Hge. rewrite Hge.
  split; reflexivity.
Qed.

Lemma C1_witness :
  5 <= idle_percent default_shut_args
  /\ datetime_ge (at_time 2 35) (at_time 2 30) = true
  /\ count is_suspend
       (emitted (check_shutdown (steady (at_time 2 35) 5) default_shut_args 5
                                (Some (at_time 2 30))) world0) = 1%nat.
Proof.
  split; [discriminate|]. split; [reflexivity|].
  apply (C1_fires_exactly_once (steady (at_time 2 35) 5) default_shut_args 5
                               (at_time 2 30) (at_time 2 35) world0);
    [discriminate | reflexivity | reflexivity | reflexivity].
Defined.

(** C2, as the code has it: after the shutdown action fires (a shutdown is
    pending, its planned time is reached, the usage is at or below the
    threshold, the time is inside the window) and [systemctl suspend]
    returns, [check_shutdown] returns [None], the Inactive state, because it
    ends without a [return]; an evaluation that starts from that state never
    invokes the shutdown action, whatever the usage and the time. *)
Theorem C2_state_after_firing_is_inactive
  (env : oracle) (sa : shut_args) (gpu_usage : Z)
  (planned now_full : datetime) (rc : Z) (w : world) :
  gpu_usage <= idle_percent sa ->
  env (w_seq w) datetime DtNow = inl now_full ->
  inside_window (start sa) (end_ sa) (datetime_time now_full) = true ->
  datetime_ge now_full planned = true ->
  env (S (w_seq w)) Z (SubprocessCall ["systemctl"; "suspend"]) = inl rc ->
  outcome (check_shutdown env sa gpu_usage (Some planned)) w = Done None
  /\ forall (env' : oracle) (gpu_usage' : Z) (w' : world),
       count is_suspend
         (emitted (check_shutdown env' sa gpu_usage' None) w') = 0%nat.
Proof.
  intros Hidle Hclock Hin Hge Hrc. split.
  - unfold outcome.
    rewrite (check_shutdown_in_range env sa gpu_usage (Some planned) w
                                     now_full Hidle Hclock Hin).
    unfold in_range_step.
    rewrite datetime_ge_lt in Hge. apply negb_true_iff in Hge.
    rewrite Hge, Hrc. reflexivity.
  - intros env' gpu_usage' w'. apply check_shutdown_inactive_quiet.
Qed.

Lemma C2_witness :
  outcome (check_shutdown (steady (at_time 2 35) 5) default_shut_args 5
                          (Some (at_time 2 30))) world0 = Done None
  /\ forall (env' : oracle) (gpu_usage' : Z) (w' : world),
       count is_suspend
         (emitted (check_shutdown env' default_shut_args gpu_usage' None) w')
       = 0%nat.
Proof.
  apply (C2_state_after_firing_is_inactive
           (steady (at_time 2 35) 5) default_shut_args 5
           (at_time 2 30) (at_time 2 35) 0 world0);
    [discriminate | reflexivity | reflexivity | reflexivity | reflexivity].
Defined.

(** C2 as worded fails: with the default window, 5% usage, a shutdown
    planned for 02:30 and the clock at 02:35, the action fires and the state
    returned is not [Pending(02:30)]. *)
Lemma C2_counterexample :
  5 <= idle_percent default_shut_args
  /\ inside_window (start default_shut_args) (end_ default_shut_args)
                   (datetime_time (at_time 2 35)) = true
  /\ datetime_ge (at_time 2 35) (at_time 2 30) = true
  /\ count is_suspend
       (emitted (check_shutdown (steady (at_time 2 35) 5) default_shut_args 5
                                (Some (at_time 2 30))) world0) = 1%nat
  /\ outcome (check_shutdown (steady (at_time 2 35) 5) default_shut_args 5
                             (Some (at_time 2 30))) world0
     <> Done (Some (at_time 2 30)).
Proof.
  repeat split; try reflexivity; discriminate.
Qed.

(** C3: whenever the usage is strictly above the idle threshold,
    [check_shutdown] returns [None] (Inactive) and performs no shutdown
    action, whatever the current state and the time: it does not even read
    the clock. *)
Theorem C3_busy_returns_inactive
  (env : oracle) (sa : shut_args) (gpu_usage : Z)
  (planned_shut : option datetime) (w : world) :
  idle_percent sa < gpu_usage ->
  outcome (check_shutdown env sa gpu_usage planned_shut) w = Done None
  /\ count is_suspend
       (emitted (check_shutdown env sa gpu_usage planned_shut) w) = 0%nat
  /\ w_seq (snd (check_shutdown env sa gpu_usage planned_shut w)) = w_seq w.
Proof.
  intros Hbusy.
  pose proof (check_shutdown_busy env sa gpu_usage planned_shut w Hbusy) as E.
  repeat split.
  - eapply outcome_eq; exact E.
  - erewrite emitted_app by exact E. simpl. apply abort_notice_quiet.
  - now rewrite E.
Qed.

Lemma C3_witness :
  idle_percent default_shut_args < 50
  /\ outcome (check_shutdown (steady (at_time 2 0) 50) default_shut_args 50
                             (Some (at_time 2 30))) world0 = Done None.
Proof.
  split; [reflexivity|].
  apply (C3_busy_returns_inactive (steady (at_time 2 0) 50) default_shut_args
                                  50 (Some (at_time 2 30)) world0).
  reflexivity.
Defined.

(** C4: for a non-wrapping window ([start < end]) and a usage at or below
    the threshold, [check_shutdown] takes its "outside range1" exit exactly
    when not [start < now < end]; the tests are strict, so [now = start] and
    [now = end] are outside; outside, it returns [None] (Inactive) without a
    shutdown action; and strictly between the ends it goes on as inside the
    window, arming, keeping or carrying out the shutdown. *)
Theorem C4_non_wrapping_window
  (env : oracle) (sa : shut_args) (gpu_usage : Z)
  (planned_shut : option datetime) (now_full : datetime) (w : world) :
  gpu_usage <= idle_percent sa ->
  env (w_seq w) datetime DtNow = inl now_full ->
  time_lt (start sa) (end_ sa) = true ->
  (logged_debug "no shutdown, outside range1"
                (emitted (check_shutdown env sa gpu_usage planned_shut) w)
   <-> time_lt (start sa) (datetime_time now_full)
       && time_lt (datetime_time now_full) (end_ sa) = false)
  /\ (time_lt (start sa) (datetime_time now_full)
      && time_lt (datetime_time now_full) (end_ sa) = false ->
      outcome (check_shutdown env sa gpu_usage planned_shut) w = Done None
      /\ count is_suspend
           (emitted (check_shutdown env sa gpu_usage planned_shut) w) = 0%nat)
  /\ (datetime_time now_full = start sa \/ datetime_time now_full = end_ sa ->
      logged_debug "no shutdown, outside range1"
                   (emitted (check_shutdown env sa gpu_usage planned_shut) w))
  /\ (time_lt (start sa) (datetime_time now_full)
      && time_lt (datetime_time now_full) (end_ sa) = true ->
      check_shutdown env sa gpu_usage planned_shut w
      = in_range_step env sa planned_shut now_full w).
Proof.
  intros Hidle Hclock Hse.
  assert (Hout : time_lt (start sa) (datetime_time now_full)
                 && time_lt (datetime_time now_full) (end_ sa) = false ->
                 emitted (check_shutdown env sa gpu_usage planned_shut) w
                 = EvCall DtNow
                   :: EvLog DEBUG "no shutdown, outside range1" []
                   :: abort_notice planned_shut
                        "time now outside range1, shutdown aborted").
  { intros Hb. eapply emitted_app.
    apply (check_shutdown_range1 env sa gpu_usage planned_shut w now_full);
      assumption. }
  assert (Hlog : time_lt (start sa) (datetime_time now_full)
                 && time_lt (datetime_time now_full) (end_ sa) = false ->
                 logged_debug "no shutdown, outside range1"
                   (emitted (check_shutdown env sa gpu_usage planned_shut) w)).
  { intros Hb. rewrite (Hout Hb). right. left. reflexivity. }
  split; [split|split; [|split]].
  - intros Hlogged.
    destruct (time_lt (start sa) (datetime_time now_full)
              && time_lt (datetime_time now_full) (end_ sa)) eqn:Hb;
      [exfalso|reflexivity].
    assert (Hin : inside_window (start sa) (end_ sa) (datetime_time now_full)
                  = true) by (unfold inside_window; now rewrite Hse).
    rewrite (emitted_eq _ _ _
               (check_shutdown_in_range env sa gpu_usage planned_shut w
                                        now_full Hidle Hclock Hin)) in Hlogged.
    rewrite in_range_step_emitted in Hlogged.
    exact (in_range_not_outside _ _ _ _ Hlogged).
  - exact Hlog.
  - intros Hb. split.
    + eapply outcome_eq.
      apply (check_shutdown_range1 env sa gpu_usage planned_shut w now_full);
        assumption.
    + rewrite (Hout Hb). simpl. apply abort_notice_quiet.
  - intros [E|E]; apply Hlog; rewrite E.
    + now rewrite time_lt_irrefl.
    + rewrite time_lt_irrefl. apply andb_false_r.
  - intros Hb.
    apply (check_shutdown_in_range env sa gpu_usage planned_shut w now_full);
      try assumption.
    unfold inside_window. now rewrite Hse.
Qed.

Lemma C4_witness :
  time_lt (start default_shut_args) (end_ default_shut_args) = true
  /\ logged_debug "no shutdown, outside range1"
       (emitted (check_shutdown (steady (at_time 9 0) 5) default_shut_args 5
                                (Some (at_time 9 10))) world0)
  /\ check_shutdown (steady (at_time 2 20) 5) default_shut_args 5
                    (Some (at_time 2 30)) world0
     = in_range_step (steady (at_time 2 20) 5) default_shut_args
                     (Some (at_time 2 30)) (at_time 2 20) world0.
Proof.
  split; [reflexivity|]. split.
  - apply (C4_non_wrapping_window (steady (at_time 9 0) 5) default_shut_args
                                  5 (Some (at_time 9 10)) (at_time 9 0)
                                  world0);
      [discriminate | reflexivity | reflexivity | right; reflexivity].
  - apply (C4_non_wrapping_window (steady (at_time 2 20) 5) default_shut_args
                                  5 (Some (at_time 2 30)) (at_time 2 20)
                                  world0);
      [discriminate | reflexivity | reflexivity | reflexivity].
Defined.

(** C5: for a wrapping window ([start > end]) and a usage at or below the
    threshold, [check_shutdown] takes its "outside range2" exit exactly when
    [now < start] and [now > end], and then returns [None] (Inactive) without
    a shutdown action; at every other time, [now = start] and [now = end]
    included, it goes on as inside the window. *)
Theorem C5_wrapping_window
  (env : oracle) (sa : shut_args) (gpu_usage : Z)
  (planned_shut : option datetime) (now_full : datetime) (w : world) :
  gpu_usage <= idle_percent sa ->
  env (w_seq w) datetime DtNow = inl now_full ->
  time_gt (start sa) (end_ sa) = true ->
  (logged_debug "no shutdown, outside range2"
                (emitted (check_shutdown env sa gpu_usage planned_shut) w)
   <-> time_lt (datetime_time now_full) (start sa)
       && time_gt (datetime_time now_full) (end_ sa) = true)
  /\ (time_lt (datetime_time now_full) (start sa)
      && time_gt (datetime_time now_full) (end_ sa) = true ->
      outcome (check_shutdown env sa gpu_usage planned_shut) w = Done None
      /\ count is_suspend
           (emitted (check_shutdown env sa gpu_usage planned_shut) w) = 0%nat)
  /\ (time_lt (datetime_time now_full) (start sa)
      && time_gt (datetime_time now_full) (end_ sa) = false ->
      check_shutdown env sa gpu_usage planned_shut w
      = in_range_step env sa planned_shut now_full w)
  /\ (datetime_time now_full = start sa \/ datetime_time now_full = end_ sa ->
      check_shutdown env sa gpu_usage planned_shut w
      = in_range_step env sa planned_shut now_full w).
Proof.
  intros Hidle Hclock Hse.
  assert (Hlt : time_lt (start sa) (end_ sa) = false).
  { unfold time_lt, time_gt in *. now destruct (time_cmp (start sa) (end_ sa)). }
  assert (Hout : time_lt (datetime_time now_full) (start sa)
                 && time_gt (datetime_time now_full) (end_ sa) = true ->
                 check_shutdown env sa gpu_usage planned_shut w
                 = (Done None,
                    mk_world (S (w_seq w))
                      (w_trace w ++ EvCall DtNow
                         :: EvLog DEBUG "no shutdown, outside range2" []
                         :: abort_notice planned_shut
                              "time now outside range2, shutdown aborted"))).
  { intros Hb.
    apply (check_shutdown_range2 env sa gpu_usage planned_shut w now_full);
      assumption. }
  assert (Hins : time_lt (datetime_time now_full) (start sa)
                 && time_gt (datetime_time now_full) (end_ sa) = false ->
                 check_shutdown env sa gpu_usage planned_shut w
                 = in_range_step env sa planned_shut now_full w).
  { intros Hb.
    apply (check_shutdown_in_range env sa gpu_usage planned_shut w now_full);
      try assumption.
    unfold inside_window. now rewrite Hlt, Hse, Hb. }
  split; [split|split; [|split]].
  - intros Hlogged.
    destruct (time_lt (datetime_time now_full) (start sa)
              && time_gt (datetime_time now_full) (end_ sa)) eqn:Hb;
      [reflexivity|exfalso].
    rewrite (emitted_eq _ _ _ (Hins eq_refl)) in Hlogged.
    rewrite in_range_step_emitted in Hlogged.
    exact (in_range_not_outside _ _ _ _ Hlogged).
  - intros Hb. erewrite emitted_app by exact (Hout Hb).
    right. left. reflexivity.
  - intros Hb. split.
    + eapply outcome_eq. exact (Hout Hb).
    + erewrite emitted_app by exact (Hout Hb). simpl. apply abort_notice_quiet.
  - exact Hins.
  - intros [E|E]; apply Hins; rewrite E.
    + now rewrite time_lt_irrefl.
    + rewrite time_gt_irrefl. apply andb_false_r.
Qed.

Lemma C5_witness :
  time_gt (start night_shut_args) (end_ night_shut_args) = true
  /\ logged_debug "no shutdown, outside range2"
       (emitted (check_shutdown (steady (at_time 12 0) 5) night_shut_args 5
                                None) world0)
  /\ check_shutdown (steady (at_time 22 0) 5) night_shut_args 5 None world0
     = in_range_step (steady (at_time 22 0) 5) night_shut_args None
                     (at_time 22 0) world0.
Proof.
  split; [reflexivity|]. split.
  - apply (C5_wrapping_window (steady (at_time 12 0) 5) night_shut_args 5
                              None (at_time 12 0) world0);
      [discriminate | reflexivity | reflexivity | reflexivity].
  - apply (C5_wrapping_window (steady (at_time 22 0) 5) night_shut_args 5
                              None (at_time 22 0) world0);
      [discriminate | reflexivity | reflexivity | left; reflexivity].
Defined.

Lemma check_shutdown_n_waiting
  (env : oracle) (sa : shut_args) (gpu_usage : Z) (planned now_full : datetime) :
  gpu_usage <= idle_percent sa ->
  inside_window (start sa) (end_ sa) (datetime_time now_full) = true ->
  datetime_lt now_full planned = true ->
  forall (n : nat) (w : world),
    (forall k, (k < n)%nat ->
               env (w_seq w + k)%nat datetime DtNow = inl now_full) ->
    check_shutdown_n env n sa gpu_usage (Some planned) w
    = (Done (Some planned),
       mk_world (w_seq w + n)
                (w_trace w ++ List.concat (repeat (waiting_events planned now_full) n))).
Proof.
  intros Hidle Hin Hlt. induction n as [|n IH]; intros w Hclock.
  - destruct w as [k tr]. simpl. now rewrite Nat.add_0_r, app_nil_r.
  - assert (H0 : env (w_seq w) datetime DtNow = inl now_full).
    { rewrite <- (Nat.add_0_r (w_seq w)). apply Hclock. lia. }
    cbn [check_shutdown_n bind Monad_M].
    rewrite (check_shutdown_in_range env sa gpu_usage (Some planned) w
                                     now_full Hidle H0 Hin).
    unfold in_range_step. rewrite Hlt. rewrite IH.
    + cbn [w_seq w_trace repeat List.concat]. unfold waiting_events at 2.
      rewrite <- !app_assoc. simpl. do 2 f_equal. lia.
    + intros k Hk. cbn [w_seq].
      replace (S (w_seq w) + k)%nat with (w_seq w + S k)%nat by lia.
      apply Hclock. lia.
Qed.

Lemma waiting_events_quiet (planned now_full : datetime) (n : nat) :
  count is_suspend (List.concat (repeat (waiting_events planned now_full) n)) = 0%nat.
Proof. induction n as [|n IH]; [reflexivity | exact IH]. Qed.

(** C6: while a shutdown is pending and its planned time is still ahead
    ([now < plannedTime]), with the usage at or below the threshold and the
    time inside the window, [check_shutdown] returns the same
    [Pending(plannedTime)] and performs no action; and so do any number of
    calls in a row on the same inputs. *)
Theorem C6_pending_is_kept
  (env : oracle) (sa : shut_args) (gpu_usage : Z) (planned now_full : datetime)
  (n : nat) (w : world) :
  gpu_usage <= idle_percent sa ->
  inside_window (start sa) (end_ sa) (datetime_time now_full) = true ->
  datetime_lt now_full planned = true ->
  (forall k, (k < S n)%nat ->
             env (w_seq w + k)%nat datetime DtNow = inl now_full) ->
  check_shutdown env sa gpu_usage (Some planned) w
  = (Done (Some planned),
     mk_world (S (w_seq w)) (w_trace w ++ waiting_events planned now_full))
  /\ outcome (check_shutdown_n env (S n) sa gpu_usage (Some planned)) w
     = Done (Some planned)
  /\ count is_suspend
       (emitted (check_shutdown_n env (S n) sa gpu_usage (Some planned)) w)
     = 0%nat.
Proof.
  intros Hidle Hin Hlt Hclock.
  pose proof (check_shutdown_n_waiting env sa gpu_usage planned now_full
                Hidle Hin Hlt (S n) w Hclock) as E.
  repeat split.
  - assert (H0 : env (w_seq w) datetime DtNow = inl now_full).
    { rewrite <- (Nat.add_0_r (w_seq w)). apply Hclock. lia. }
    rewrite (check_shutdown_in_range env sa gpu_usage (Some planned) w
                                     now_full Hidle H0 Hin).
    unfold in_range_step, waiting_events. rewrite Hlt.
    now rewrite <- app_assoc.
  - eapply outcome_eq; exact E.
  - erewrite emitted_app by exact E. apply waiting_events_quiet.
Qed.

Lemma C6_witness :
  datetime_lt (at_time 2 20) (at_time 2 30) = true
  /\ outcome (check_shutdown_n (steady (at_time 2 20) 5) 3 default_shut_args 5
                               (Some (at_time 2 30))) world0
     = Done (Some (at_time 2 30)).
Proof.
  split; [reflexivity|].
  apply (C6_pending_is_kept (steady (at_time 2 20) 5) default_shut_args 5
                            (at_time 2 30) (at_time 2 20) 2 world0);
    [discriminate | reflexivity | reflexivity | intros k _; reflexivity].
Defined.

(** C10: when the window's start equals its end, neither outside-window
    exit of [check_shutdown] applies: at every time of day a usage at or
    below the threshold goes on as inside the window, arming a shutdown from
    Inactive (for [now + idle_duration], when that is a date Python can
    hold) or advancing the pending one. *)
Theorem C10_start_equals_end
  (env : oracle) (sa : shut_args) (gpu_usage : Z)
  (planned_shut : option datetime) (now_full : datetime) (w : world) :
  gpu_usage <= idle_percent sa ->
  env (w_seq w) datetime DtNow = inl now_full ->
  start sa = end_ sa ->
  check_shutdown env sa gpu_usage planned_shut w
  = in_range_step env sa planned_shut now_full w
  /\ ~ logged_debug "no shutdown, outside range1"
         (emitted (check_shutdown env sa gpu_usage planned_shut) w)
  /\ ~ logged_debug "no shutdown, outside range2"
         (emitted (check_shutdown env sa gpu_usage planned_shut) w)
  /\ (forall t, planned_shut = None ->
                datetime_add now_full (idle_duration sa) = Some t ->
                outcome (check_shutdown env sa gpu_usage planned_shut) w
                = Done (Some t)).
Proof.
  intros Hidle Hclock Heq.
  assert (Hin : inside_window (start sa) (end_ sa) (datetime_time now_full)
                = true).
  { unfold inside_window. rewrite Heq.
    now rewrite time_lt_irrefl, time_gt_irrefl. }
  pose proof (check_shutdown_in_range env sa gpu_usage planned_shut w
                now_full Hidle Hclock Hin) as E.
  split; [exact E|].
  rewrite (emitted_eq _ _ _ E), in_range_step_emitted.
  split; [apply in_range_not_outside|].
  split; [apply in_range_not_outside|].
  intros t Hnone Hadd. unfold outcome. rewrite E.
  unfold in_range_step. now rewrite Hnone, Hadd.
Qed.

Lemma C10_witness :
  start point_shut_args = end_ point_shut_args
  /\ outcome (check_shutdown (steady (at_time 15 0) 5) point_shut_args 5 None)
             world0
     = Done (Some (at_time 15 30)).
Proof.
  split; [reflexivity|].
  apply (C10_start_equals_end (steady (at_time 15 0) 5) point_shut_args 5
                              None (at_time 15 0) world0);
    [discriminate | reflexivity | reflexivity | reflexivity | reflexivity].
Defined.

(** *** Parsing the [--shutdown] argument *)

Lemma digits_sound (hi lo : nat) (s m r : string) :
  In (m, r) (Re.digits lo hi s) ->
  all_digits m = true /\ (lo <= String.length m <= hi)%nat.
Proof.
  revert lo s m r. induction hi as [|hi IH]; intros lo s m r Hin.
  - simpl in Hin. destruct lo; [|contradiction].
    destruct Hin as [E|[]]. inversion E; subst. simpl. split; [reflexivity|lia].
  - simpl in Hin. apply in_app_or in Hin. destruct Hin as [Hin|Hin].
    + destruct s as [|c s']; [contradiction|].
      destruct (Re.is_digit c) eqn:Hc; [|contradiction].
      apply in_map_iff in Hin. destruct Hin as [[m' r'] [E Hin]].
      inversion E; subst. apply IH in Hin. destruct Hin as [Hd Hlen].
      simpl. rewrite Hc, Hd. split; [reflexivity|lia].
    + destruct lo; [|contradiction].
      destruct Hin as [E|[]]. inversion E; subst. simpl. split; [reflexivity|lia].
Qed.

(** The bound that [Re.digits1] puts on [\d+] loses no match: a larger one
    gives the same candidates. *)
Lemma digits_unbounded (hi lo : nat) (s : string) :
  (String.length s <= hi)%nat ->
  Re.digits lo hi s = Re.digits lo (String.length s) s.
Proof.
  revert lo s. induction hi as [|hi IH]; intros lo s Hlen.
  - destruct s; [reflexivity | simpl in Hlen; lia].
  - destruct s as [|c s']; [reflexivity|].
    simpl in Hlen. cbn [Re.digits String.length].
    now rewrite (IH (Nat.pred lo) s') by lia.
Qed.

Lemma digit_value_range (c : ascii) :
  Re.is_digit c = true -> 0 <= digit_value c <= 9.
Proof.
  unfold Re.is_digit, digit_value. intros H.
  apply andb_true_iff in H. destruct H as [H1 H2].
  apply Nat.leb_le in H1. apply Nat.leb_le in H2.
  lia.
Qed.

Lemma int_acc_range (s : string) :
  all_digits s = true ->
  forall acc, 0 <= acc ->
    0 <= int_acc acc s < (acc + 1) * 10 ^ Z.of_nat (String.length s).
Proof.
  induction s as [|c s IH]; intros Hd acc Hacc.
  - simpl. lia.
  - simpl in Hd. apply andb_true_iff in Hd. destruct Hd as [Hc Hd].
    pose proof (digit_value_range c Hc) as Hv.
    cbn [int_acc String.length].
    specialize (IH Hd (10 * acc + digit_value c) ltac:(lia)).
    rewrite Nat2Z.inj_succ, Z.pow_succ_r by lia.
    assert (0 < 10 ^ Z.of_nat (String.length s)) by (apply Z.pow_pos_nonneg; lia).
    nia.
Qed.

Lemma int_range (s : string) (n : nat) :
  all_digits s = true -> (String.length s <= n)%nat ->
  0 <= int s < 10 ^ Z.of_nat n.
Proof.
  intros Hd Hlen. unfold int.
  pose proof (int_acc_range s Hd 0 ltac:(lia)) as H.
  assert (10 ^ Z.of_nat (String.length s) <= 10 ^ Z.of_nat n)
    by (apply Z.pow_le_mono_r; lia).
  lia.
Qed.

Ltac step_seq H :=
  unfold Re.seq in H; apply in_flat_map in H;
  let x := fresh "x" in
  let rest := fresh "rest" in
  let Hx := fresh "Hx" in
  destruct H as [[x rest] [Hx H]].

(** What a match of [SHUT_ARGS_PATTERN] captured. *)
Lemma SHUT_ARGS_PATTERN_sound (s r : string) (g : groupdict) :
  In (g, r) (SHUT_ARGS_PATTERN s) ->
  all_digits (g_idle_duration g) = true
  /\ all_digits (g_idle_percent g) = true
  /\ (1 <= String.length (g_idle_percent g) <= 2)%nat.
Proof.
  intros H. unfold SHUT_ARGS_PATTERN in H.
  do 12 step_seq H.
  unfold Re.pure in H. destruct H as [E|[]]. inversion E; subst. simpl.
  unfold Re.digits1 in *.
  repeat match goal with
         | Hd : In _ (Re.digits _ _ _) |- _ => apply digits_sound in Hd
         end.
  intuition.
Qed.

Lemma re_match_sound {A} (p : Re.matcher A) (s : string) (a : A) :
  Re.re_match p s = Some a -> exists r, In (a, r) (p s).
Proof.
  unfold Re.re_match. destruct (p s) as [|[a' r] l]; [discriminate|].
  intros E. inversion E; subst. exists r. now left.
Qed.

Lemma timedelta_of_minutes (n : Z) (d : timedelta) :
  timedelta_of_seconds (60 * n) = Some d ->
  timedelta_to_us d = 60 * n * US_PER_SECOND.
Proof.
  unfold timedelta_of_seconds.
  destruct (Z.abs (60 * n / 86400) <=? MAX_DELTA_DAYS); [|discriminate].
  intros E.
  replace d with (mk_timedelta (60 * n / 86400) ((60 * n) mod 86400) 0)
    by congruence.
  unfold timedelta_to_us, US_PER_SECOND, days, seconds, microseconds.
  pose proof (Z.div_mod (60 * n) 86400 ltac:(lia)). lia.
Qed.

(** A non-empty specification that [SHUT_ARGS_PATTERN] does not match:
    [parse_args] prints its complaint and returns the integer 2, which [main]
    then fails to unpack; the [TypeError] ends the process with status 1
    before anything of the monitor has started. *)
Lemma script_unparsable (env : oracle) (fuel : nat) (ns : namespace) (w : world) :
  shutdown ns <> "" ->
  Re.re_match SHUT_ARGS_PATTERN (shutdown ns) = None ->
  parse_args ns w
  = (Done (PR_int 2),
     mk_world (w_seq w)
       (w_trace w ++ [EvStderr "failed to parse shutdown args {0!r}"
                               [AStr (shutdown ns)]]))
  /\ main env fuel ns w
     = (Raised TypeError,
        mk_world (w_seq w)
          (w_trace w ++ [EvStderr "failed to parse shutdown args {0!r}"
                                  [AStr (shutdown ns)]]))
  /\ script env fuel ns w
     = (Some 1,
        mk_world (w_seq w)
          (w_trace w ++ [EvStderr "failed to parse shutdown args {0!r}"
                                  [AStr (shutdown ns)]])).
Proof.
  intros Hne Hno.
  assert (P : parse_args ns w
              = (Done (PR_int 2),
                 mk_world (w_seq w)
                   (w_trace w ++ [EvStderr "failed to parse shutdown args {0!r}"
                                           [AStr (shutdown ns)]]))).
  { unfold parse_args. destruct (shutdown ns) eqn:E; [congruence|].
    rewrite Hno. reflexivity. }
  assert (Mn : main env fuel ns w
               = (Raised TypeError,
                  mk_world (w_seq w)
                    (w_trace w ++ [EvStderr "failed to parse shutdown args {0!r}"
                                            [AStr (shutdown ns)]]))).
  { unfold main. cbn [bind Monad_M]. rewrite P. reflexivity. }
  split; [exact P|]. split; [exact Mn|].
  unfold script. rewrite Mn. reflexivity.
Qed.

(** C7, on the code: for [--shutdown garbage] the complaint is printed and
    [parse_args] returns 2, but the process ends with exit status 1, not 2:
    [main] unpacks the integer as a pair and raises [TypeError]. *)
Theorem C7_garbage_exit_status (env : oracle) (fuel : nat) (w : world) :
  outcome (parse_args (default_namespace "garbage")) w = Done (PR_int 2)
  /\ script env fuel (default_namespace "garbage") w
     = (Some 1,
        mk_world (w_seq w)
          (w_trace w ++ [EvStderr "failed to parse shutdown args {0!r}"
                                  [AStr "garbage"]])).
Proof.
  destruct (script_unparsable env fuel (default_namespace "garbage") w)
    as [P [_ S]]; [discriminate | reflexivity |].
  split; [eapply outcome_eq; exact P | exact S].
Qed.

Lemma parse_args_accepted (ns : namespace) (w : world) (sa : shut_args) :
  accepted ns w sa ->
  exists g r,
    In (g, r) (SHUT_ARGS_PATTERN (shutdown ns))
    /\ groups sa = g
    /\ idle_percent sa = int (g_idle_percent g)
    /\ timedelta_of_seconds (60 * int (g_idle_duration g))
       = Some (idle_duration sa).
Proof.
  unfold accepted, outcome, parse_args.
  destruct (shutdown ns) as [|c s] eqn:E; [discriminate|].
  destruct (Re.re_match SHUT_ARGS_PATTERN (String c s)) as [g|] eqn:Hm;
    [|discriminate].
  apply re_match_sound in Hm. destruct Hm as [r Hin].
  cbn [bind Monad_M].
  destruct (time_new (int (start_h g)) (int (start_min g))); [|discriminate].
  destruct (time_new (int (end_h g)) (int (end_min g))); [|discriminate].
  destruct (timedelta_of_seconds (60 * int (g_idle_duration g))) as [d|] eqn:Hd;
    [|discriminate].
  cbn. intros [= <-]. exists g, r. cbn. auto.
Qed.

(** The numbers of an accepted window. *)
Lemma accepted_window_bounds (ns : namespace) (w : world) (sa : shut_args) :
  accepted ns w sa ->
  0 <= idle_percent sa <= 99
  /\ 0 <= int (g_idle_duration (groups sa))
  /\ timedelta_to_us (idle_duration sa)
     = 60 * int (g_idle_duration (groups sa)) * US_PER_SECOND
  /\ (window_invariant sa = true <-> 0 < int (g_idle_duration (groups sa))).
Proof.
  intros Hacc.
  destruct (parse_args_accepted ns w sa Hacc) as [g [r [Hin [Hg [Hp Hd]]]]].
  destruct (SHUT_ARGS_PATTERN_sound _ _ _ Hin) as [Ddur [Dpct [_ Lpct]]].
  pose proof (int_range (g_idle_percent g) 2 Dpct Lpct) as Rp.
  pose proof (int_range (g_idle_duration g) _ Ddur (Nat.le_refl _)) as Rd.
  pose proof (timedelta_of_minutes _ _ Hd) as Hus.
  change (10 ^ Z.of_nat 2) with 100 in Rp.
  rewrite Hg, Hp.
  split; [lia|]. split; [lia|]. split; [exact Hus|]. split.
  - unfold window_invariant, timedelta_positive. rewrite Hus, Hp.
    unfold US_PER_SECOND. intros H.
    apply andb_true_iff in H. destruct H as [H _].
    apply andb_true_iff in H. destruct H as [H _].
    apply Z.ltb_lt in H. lia.
  - unfold window_invariant, timedelta_positive. rewrite Hus, Hp.
    unfold US_PER_SECOND. intros H.
    apply andb_true_iff. split; [apply andb_true_iff; split|].
    + apply Z.ltb_lt. lia.
    + apply Z.leb_le. lia.
    + apply Z.leb_le. lia.
Qed.

(** C8 as worded fails: ["1:30-9:00,0,10"] is accepted, and the window it
    yields has an idle duration of zero, against the invariant. *)
Lemma C8_counterexample :
  accepted (default_namespace "1:30-9:00,0,10") world0 zero_minutes_shut_args
  /\ timedelta_positive (idle_duration zero_minutes_shut_args) = false
  /\ window_invariant zero_minutes_shut_args = false.
Proof. repeat split. Qed.

(** A percent of three digits and a negative duration are both refused. *)
Example percent_100_rejected (w : world) :
  outcome (parse_args (default_namespace "1:30-9:00,30,100")) w
  = Done (PR_int 2).
Proof. reflexivity. Qed.

Example negative_minutes_rejected (w : world) :
  outcome (parse_args (default_namespace "1:30-9:00,-5,10")) w
  = Done (PR_int 2).
Proof. reflexivity. Qed.

(** *** The monitor loop and the NVML session *)

Lemma count_app (p : event -> bool) (xs ys : list event) :
  count p (xs ++ ys) = (count p xs + count p ys)%nat.
Proof. unfold count. now rewrite filter_app, length_app. Qed.

Section Avoids.

Variable env : oracle.
Variable p : event -> bool.

Lemma avoids_ret {A} (a : A) : avoids p (ret a).
Proof. intros w. exists []. simpl. now rewrite app_nil_r. Qed.

Lemma avoids_raise {A} (e : exn) : avoids p (raise e : M A).
Proof. intros w. exists []. simpl. now rewrite app_nil_r. Qed.

Lemma avoids_out_of_fuel {A} : avoids p (out_of_fuel : M A).
Proof. intros w. exists []. simpl. now rewrite app_nil_r. Qed.

Lemma avoids_emit (ev : event) : p ev = false -> avoids p (emit ev).
Proof.
  intros Hp w. exists [ev]. simpl. split; [reflexivity|].
  unfold count. simpl. now rewrite Hp.
Qed.

Lemma avoids_ext {T} (c : call T) :
  p (EvCall c) = false -> avoids p (ext env c).
Proof.
  intros Hp w. exists [EvCall c]. unfold ext.
  destruct (env (w_seq w) T c); simpl; (split; [reflexivity|]);
    unfold count; simpl; now rewrite Hp.
Qed.

Lemma avoids_bind {A B} (c : M A) (k : A -> M B) :
  avoids p c -> (forall a, avoids p (k a)) -> avoids p (bind c k).
Proof.
  intros Hc Hk w. destruct (Hc w) as [evs1 [T1 C1]].
  cbn [bind Monad_M].
  destruct (c w) as [[a|e|] w1]; cbn [fst snd] in *.
  - destruct (Hk a w1) as [evs2 [T2 C2]].
    exists (evs1 ++ evs2)%list. split.
    + now rewrite T2, T1, app_assoc.
    + rewrite count_app. lia.
  - exists evs1. auto.
  - exists evs1. auto.
Qed.

Lemma avoids_catch {A} (c : M A) (h : exn -> M A) :
  avoids p c -> (forall e, avoids p (h e)) -> avoids p (catch c h).
Proof.
  intros Hc Hh w. destruct (Hc w) as [evs1 [T1 C1]].
  cbn [catch MonadExc_M].
  destruct (c w) as [[a|e|] w1]; cbn [fst snd] in *.
  - exists evs1. auto.
  - destruct (Hh e w1) as [evs2 [T2 C2]].
    exists (evs1 ++ evs2)%list. split.
    + now rewrite T2, T1, app_assoc.
    + rewrite count_app. lia.
  - exists evs1. auto.
Qed.

Lemma avoids_or_raise {A} (e : exn) (o : option A) : avoids p (or_raise e o).
Proof. destruct o; [apply avoids_ret | apply avoids_raise]. Qed.

End Avoids.

(** One step of the proof that a computation avoids an event. *)
Ltac avoids_step :=
  match goal with
  | |- avoids _ (bind _ _) => apply avoids_bind; [|intros ?]
  | |- avoids _ (ret _) => apply avoids_ret
  | |- avoids _ (raise _) => apply avoids_raise
  | |- avoids _ (or_raise _ _) => apply avoids_or_raise
  | |- avoids _ (emit _) => apply avoids_emit; reflexivity
  | |- avoids _ (log _ _ _) => apply avoids_emit; reflexivity
  | |- avoids _ (print_stderr _ _) => apply avoids_emit; reflexivity
  | |- avoids _ (ext _ _) => apply avoids_ext; reflexivity
  | |- avoids _ (if ?b then _ else _) => destruct b
  | |- avoids _ (match ?x with _ => _ end) => destruct x
  end.

Lemma parse_args_avoids (ns : namespace) :
  avoids is_nvml_bracket (parse_args ns).
Proof. unfold parse_args. repeat avoids_step. Qed.

Lemma get_data_avoids (env : oracle) (h : handle) (p : event -> bool) :
  p = is_nvml_bracket \/ p = is_nvmlShutdown -> avoids p (get_data env h).
Proof. intros [-> | ->]; unfold get_data; repeat avoids_step. Qed.

Lemma print_data_avoids (d : data) (ws : option datetime) (p : event -> bool) :
  p = is_nvml_bracket \/ p = is_nvmlShutdown -> avoids p (print_data d ws).
Proof. intros [-> | ->]; unfold print_data; repeat avoids_step. Qed.

Lemma check_shutdown_avoids
  (env : oracle) (sa : shut_args) (u : Z) (ws : option datetime)
  (p : event -> bool) :
  p = is_nvml_bracket \/ p = is_nvmlShutdown ->
  avoids p (check_shutdown env sa u ws).
Proof.
  intros [-> | ->]; unfold check_shutdown, do_shutdown; repeat avoids_step.
Qed.

Lemma main_loop_avoids
  (env : oracle) (args : namespace) (sa : option shut_args)
  (p : event -> bool) :
  p = is_nvml_bracket \/ p = is_nvmlShutdown ->
  forall (fuel : nat) (ws : option datetime),
    avoids p (main_loop env fuel args sa ws).
Proof.
  intros Hp. induction fuel as [|fuel IH]; intros ws.
  - apply avoids_out_of_fuel.
  - cbn [main_loop].
    apply avoids_bind; [destruct Hp as [-> | ->]; avoids_step|intros h].
    apply avoids_bind; [now apply get_data_avoids|intros d].
    apply avoids_bind;
      [destruct sa; [now apply check_shutdown_avoids|apply avoids_ret]
      |intros ws'].
    apply avoids_bind; [now apply print_data_avoids|intros _].
    apply avoids_bind; [destruct Hp as [-> | ->]; avoids_step|intros _].
    apply IH.
Qed.

Lemma bind_not_done {A B} (c : M A) (k : A -> M B) (w : world) :
  (forall a w1 b, fst (k a w1) <> Done b) ->
  forall b, fst (bind c k w) <> Done b.
Proof.
  intros Hk b. cbn [bind Monad_M].
  destruct (c w) as [[a|e|] w1]; [apply Hk | discriminate | discriminate].
Qed.

Lemma catch_not_done {A} (c : M A) (h : exn -> M A) (w : world) :
  (forall a, fst (c w) <> Done a) ->
  (forall e w1 a, fst (h e w1) <> Done a) ->
  forall a, fst (catch c h w) <> Done a.
Proof.
  intros Hc Hh a. cbn [catch MonadExc_M].
  destruct (c w) as [[a'|e|] w1]; cbn [fst] in *;
    [apply Hc | apply Hh | discriminate].
Qed.

(** The [while True:] loop has no normal exit. *)
Lemma main_loop_not_done
  (env : oracle) (args : namespace) (sa : option shut_args) :
  forall (fuel : nat) (ws : option datetime) (w : world) (u : unit),
    fst (main_loop env fuel args sa ws w) <> Done u.
Proof.
  induction fuel as [|fuel IH]; intros ws w u.
  - discriminate.
  - cbn [main_loop].
    repeat (apply bind_not_done; intros ? ? ?).
    apply IH.
Qed.

Lemma count_bracket_zero (evs : list event) :
  count is_nvml_bracket evs = 0%nat ->
  count is_nvmlInit evs = 0%nat /\ count is_nvmlShutdown evs = 0%nat.
Proof.
  unfold count, is_nvml_bracket. induction evs as [|ev evs IH]; [auto|].
  simpl. destruct (is_nvmlInit ev), (is_nvmlShutdown ev); simpl;
    try discriminate; exact IH.
Qed.

(** A step that touches neither end of the NVML session keeps the
    discipline of what follows it. *)
Lemma closes_session_bind {A} (c : M A) (k : A -> M Z) :
  avoids is_nvml_bracket c ->
  (forall a, closes_session (k a)) ->
  closes_session (bind c k).
Proof.
  intros Hc Hk w. destruct (Hc w) as [evs1 [T1 C1]].
  cbn [bind Monad_M].
  destruct (c w) as [[a|e|] w1]; cbn [fst snd] in *.
  - destruct (Hk a w1) as [evs2 [T2 S2]].
    exists (evs1 ++ evs2)%list. split; [now rewrite T2, T1, app_assoc|].
    destruct S2 as [R | [Z0 | [pre [e [E [Cp R]]]]]].
    + now left.
    + right. left. rewrite count_app. lia.
    + right. right. exists (evs1 ++ pre)%list, e.
      split; [now rewrite E, app_assoc|]. split; [|exact R].
      rewrite count_app. apply count_bracket_zero in C1. lia.
  - exists evs1. split; [exact T1|]. right. now left.
  - exists evs1. split; [exact T1|]. now left.
Qed.

(** The [try ... finally] of [main], with what follows it. *)
Lemma try_block_closes_session
  (env : oracle) (fuel : nat) (args : namespace) (sa : option shut_args) :
  closes_session
    (try_finally
       (try_except_Exception
          (log DEBUG "initializing nvml" [] ;;
           ext env NvmlInit ;;
           device_count <- ext env NvmlDeviceGetCount ;;
           log DEBUG "found %i gpus" [AInt device_count] ;;
           main_loop env fuel args sa None)
          (fun e => raise e))
       (log DEBUG "shutting down nvml" [] ;;
        ext env NvmlShutdown) ;;
     log DEBUG "done." [] ;;
     emit EvLoggingShutdown ;;
     ret 0).
Proof.
  intros w.
  set (body := try_except_Exception _ _).
  assert (Hav : avoids is_nvmlShutdown body).
  { unfold body, try_except_Exception.
    apply avoids_catch; [|intros e; destruct (is_Exception e); avoids_step].
    repeat avoids_step. apply main_loop_avoids. now right. }
  assert (Hnd : forall w0 u, fst (body w0) <> Done u).
  { intros w0 u. unfold body, try_except_Exception.
    apply catch_not_done.
    - intros b. repeat (apply bind_not_done; intros ? ? ?).
      apply main_loop_not_done.
    - intros e w1 b. destruct (is_Exception e); discriminate. }
  destruct (Hav w) as [evs [T C]].
  cbn [bind Monad_M]. unfold try_finally.
  destruct (body w) as [[u|e|] w1] eqn:Eb; cbn [fst snd] in *.
  - exfalso. apply (Hnd w u). now rewrite Eb.
  - exists (evs ++ teardown)%list.
    unfold log, emit, ext. cbn.
    destruct (env (w_seq w1) unit NvmlShutdown) as [[]|e']; cbn.
    + split; [now rewrite T, <- !app_assoc|].
      right. right. exists evs, e. auto.
    + split; [now rewrite T, <- !app_assoc|].
      right. right. exists evs, e'. auto.
  - exists evs. split; [exact T|]. now left.
Qed.

Lemma main_closes_session (env : oracle) (fuel : nat) (ns : namespace) :
  closes_session (main env fuel ns).
Proof.
  unfold main.
  apply closes_session_bind; [apply parse_args_avoids|intros r].
  apply closes_session_bind; [destruct r; avoids_step|intros [args sa]].
  apply closes_session_bind; [avoids_step|intros _].
  apply closes_session_bind;
    [destruct (log_file args); repeat avoids_step|intros _].
  apply closes_session_bind; [avoids_step|intros _].
  apply closes_session_bind; [avoids_step|intros _].
  apply try_block_closes_session.
Qed.

(** *** Every run in which a call fails comes to an end *)

Section Finishes.

Variable env : oracle.
Variable n : nat.
Hypothesis Hfail : fails_at env n.

Lemma bounded_ret {A} (a : A) : bounded n (ret a).
Proof. intros w Hw. simpl. lia. Qed.

Lemma bounded_raise {A} (e : exn) : bounded n (raise e : M A).
Proof. intros w Hw. exact I. Qed.

Lemma bounded_or_raise {A} (e : exn) (o : option A) : bounded n (or_raise e o).
Proof. destruct o; [apply bounded_ret | apply bounded_raise]. Qed.

Lemma bounded_emit (ev : event) : bounded n (emit ev).
Proof. intros w Hw. simpl. lia. Qed.

Lemma bounded_ext {T} (c : call T) : bounded n (ext env c).
Proof.
  intros w Hw. unfold ext.
  destruct (env (w_seq w) T c) as [v|e] eqn:E; [|exact I].
  cbn [w_seq]. destruct (Nat.eq_dec (w_seq w) n) as [Heq|Hne]; [|lia].
  rewrite Heq in E. destruct (Hfail T c) as [e He]. congruence.
Qed.

Lemma bounded_bind {A B} (c : M A) (k : A -> M B) :
  bounded n c -> (forall a, bounded n (k a)) -> bounded n (bind c k).
Proof.
  intros Hc Hk w Hw. specialize (Hc w Hw). cbn [bind Monad_M].
  destruct (c w) as [[a|e|] w1]; [|exact I|exact Hc].
  specialize (Hk a w1 ltac:(lia)).
  destruct (k a w1) as [[b|e|] w2]; [lia|exact I|exact Hk].
Qed.

Lemma finishes_bind {A B} (m : nat) (c : M A) (k : A -> M B) :
  bounded n c -> (forall a, finishes n m (k a)) -> finishes n m (bind c k).
Proof.
  intros Hc Hk w Hw Hm. specialize (Hc w Hw). cbn [bind Monad_M].
  destruct (c w) as [[a|e|] w1]; [|discriminate|contradiction].
  apply Hk; lia.
Qed.

(** An external call uses up one of the calls left before call [n]. *)
Lemma finishes_ext_bind {T B} (m : nat) (c : call T) (k : T -> M B) :
  (forall v, finishes n m (k v)) -> finishes n (S m) (bind (ext env c) k).
Proof.
  intros Hk w Hw Hm. cbn [bind Monad_M]. unfold ext.
  destruct (env (w_seq w) T c) as [v|e] eqn:E; [|discriminate].
  destruct (Nat.eq_dec (w_seq w) n) as [Heq|Hne].
  - rewrite Heq in E. destruct (Hfail T c) as [e He]. congruence.
  - apply Hk; cbn [w_seq]; lia.
Qed.

Lemma finishes_then_total {A B} (m : nat) (c : M A) (k : A -> M B) :
  finishes n m c -> (forall a, total (k a)) -> finishes n m (bind c k).
Proof.
  intros Hc Hk w Hw Hm. specialize (Hc w Hw Hm). cbn [bind Monad_M].
  destruct (c w) as [[a|e|] w1]; [apply Hk|discriminate|contradiction].
Qed.

Lemma finishes_catch {A} (m : nat) (c : M A) (h : exn -> M A) :
  finishes n m c -> (forall e, total (h e)) -> finishes n m (catch c h).
Proof.
  intros Hc Hh w Hw Hm. specialize (Hc w Hw Hm). cbn [catch MonadExc_M].
  destruct (c w) as [[a|e|] w1]; [discriminate|apply Hh|contradiction].
Qed.

Lemma finishes_try_finally {A} (m : nat) (c : M A) (final : M unit) :
  finishes n m c -> total final -> finishes n m (try_finally c final).
Proof.
  intros Hc Hf w Hw Hm. specialize (Hc w Hw Hm). unfold try_finally.
  destruct (c w) as [[a|e|] w1]; [| |contradiction];
    specialize (Hf w1); destruct (final w1) as [[u|e'|] w2];
    cbn [fst] in *; congruence.
Qed.

Ltac bounded_step :=
  match goal with
  | |- bounded _ (bind _ _) => apply bounded_bind; [|intros ?]
  | |- bounded _ (ret _) => apply bounded_ret
  | |- bounded _ (raise _) => apply bounded_raise
  | |- bounded _ (or_raise _ _) => apply bounded_or_raise
  | |- bounded _ (emit _) => apply bounded_emit
  | |- bounded _ (log _ _ _) => apply bounded_emit
  | |- bounded _ (print_stderr _ _) => apply bounded_emit
  | |- bounded _ (ext _ _) => apply bounded_ext
  | |- bounded _ (if ?b then _ else _) => destruct b
  | |- bounded _ (match ?x with _ => _ end) => destruct x
  end.

Lemma parse_args_bounded (ns : namespace) : bounded n (parse_args ns).
Proof. unfold parse_args. repeat bounded_step. Qed.

Lemma get_data_bounded (h : handle) : bounded n (get_data env h).
Proof. unfold get_data. repeat bounded_step. Qed.

Lemma print_data_bounded (d : data) (ws : option datetime) :
  bounded n (print_data d ws).
Proof. unfold print_data. repeat bounded_step. Qed.

Lemma check_shutdown_bounded (sa : shut_args) (u : Z) (ws : option datetime) :
  bounded n (check_shutdown env sa u ws).
Proof. unfold check_shutdown, do_shutdown. repeat bounded_step. Qed.

(** With one unit of fuel for each call still ahead of call [n], the loop
    reaches the failing call. *)
Lemma main_loop_finishes (args : namespace) (sa : option shut_args) :
  forall (fuel : nat) (ws : option datetime),
    finishes n fuel (main_loop env fuel args sa ws).
Proof.
  induction fuel as [|fuel IH]; intros ws.
  - intros w Hw Hm. lia.
  - cbn [main_loop].
    apply finishes_ext_bind. intros h.
    apply finishes_bind; [apply get_data_bounded|intros d].
    apply finishes_bind;
      [destruct sa; [apply check_shutdown_bounded|apply bounded_ret]
      |intros ws'].
    apply finishes_bind; [apply print_data_bounded|intros _].
    apply finishes_bind; [apply bounded_ext|intros _].
    apply IH.
Qed.

Lemma main_finishes (fuel : nat) (ns : namespace) :
  finishes n fuel (main env fuel ns).
Proof.
  unfold main.
  apply finishes_bind; [apply parse_args_bounded|intros r].
  apply finishes_bind; [destruct r; bounded_step|intros [args sa]].
  apply finishes_bind; [bounded_step|intros _].
  apply finishes_bind;
    [destruct (log_file args); repeat bounded_step|intros _].
  apply finishes_bind; [bounded_step|intros _].
  apply finishes_bind; [bounded_step|intros _].
  apply finishes_then_total; [|intros u w; discriminate].
  apply finishes_try_finally.
  - unfold try_except_Exception. apply finishes_catch.
    + apply finishes_bind; [bounded_step|intros _].
      apply finishes_bind; [bounded_step|intros _].
      apply finishes_bind; [bounded_step|intros cnt].
      apply finishes_bind; [bounded_step|intros _].
      apply main_loop_finishes.
    + intros e w. destruct (is_Exception e); discriminate.
  - intros w. unfold log, emit, ext. cbn.
    destruct (env (w_seq w) unit NvmlShutdown); discriminate.
Qed.

End Finishes.

Lemma emitted_of_trace {A} (c : M A) (w : world) (evs : list event) :
  w_trace (snd (c w)) = (w_trace w ++ evs)%list -> emitted c w = evs.
Proof.
  intros E. unfold emitted. rewrite E.
  rewrite skipn_app, skipn_all, Nat.sub_diag. reflexivity.
Qed.

Lemma count_zero_not_in (p : event -> bool) (ev : event) (evs : list event) :
  p ev = true -> In ev evs -> count p evs <> 0%nat.
Proof.
  intros Hp Hin. unfold count.
  assert (Hf : In ev (filter p evs)) by (apply filter_In; auto).
  destruct (filter p evs); [contradiction|discriminate].
Qed.

(** C9: on every exit path of [main] on which NVML was initialised (a
    fatal provider error, an interrupt, or any other exception; the loop has
    no normal exit), the events of the run end with the teardown
    ([nvmlShutdown]), which is the only [nvmlShutdown] of the run and comes
    after [nvmlInit], and then the exception leaves [main].  And the run
    does end, given fuel enough, as soon as some call fails. *)
Theorem C9_teardown_on_every_exit (env : oracle) (ns : namespace) (w : world) :
  (forall fuel,
      outcome (main env fuel ns) w <> Running ->
      In (EvCall NvmlInit) (emitted (main env fuel ns) w) ->
      exists pre e,
        emitted (main env fuel ns) w = (pre ++ teardown)%list
        /\ In (EvCall NvmlInit) pre
        /\ count is_nvmlShutdown pre = 0%nat
        /\ count is_nvmlShutdown (emitted (main env fuel ns) w) = 1%nat
        /\ outcome (main env fuel ns) w = Raised e)
  /\ (forall n fuel,
         (w_seq w <= n)%nat -> fails_at env n -> (n - w_seq w < fuel)%nat ->
         outcome (main env fuel ns) w <> Running).
Proof.
  split.
  - intros fuel Hend Hinit.
    destruct (main_closes_session env fuel ns w) as [evs [T S]].
    apply emitted_of_trace in T. rewrite T in *.
    destruct S as [R | [Z0 | [pre [e [E [Cp R]]]]]].
    + contradiction.
    + exfalso. revert Z0.
      apply (count_zero_not_in is_nvml_bracket (EvCall NvmlInit));
        [reflexivity|exact Hinit].
    + exists pre, e. split; [exact E|]. split; [|split; [exact Cp|split]].
      * rewrite E in Hinit. apply in_app_or in Hinit.
        destruct Hinit as [H|H]; [exact H|].
        simpl in H. destruct H as [H|[H|[]]]; discriminate.
      * rewrite E, count_app, Cp. reflexivity.
      * exact R.
  - intros n fuel Hw Hfail Hm.
    exact (main_finishes env n Hfail fuel ns w Hw Hm).
Qed.

Lemma C9_witness :
  (exists pre e,
      emitted (main (failing_at 20 KeyboardInterrupt (at_time 2 35) 5) 25
                    (default_namespace SHUT_ARGS_DEFAULT)) world0
      = (pre ++ teardown)%list
      /\ In (EvCall NvmlInit) pre
      /\ count is_nvmlShutdown pre = 0%nat
      /\ count is_nvmlShutdown
           (emitted (main (failing_at 20 KeyboardInterrupt (at_time 2 35) 5) 25
                          (default_namespace SHUT_ARGS_DEFAULT)) world0)
         = 1%nat
      /\ outcome (main (failing_at 20 KeyboardInterrupt (at_time 2 35) 5) 25
                       (default_namespace SHUT_ARGS_DEFAULT)) world0
         = Raised e)
  /\ outcome (main (failing_at 20 KeyboardInterrupt (at_time 2 35) 5) 25
                   (default_namespace SHUT_ARGS_DEFAULT)) world0
     <> Running.
Proof.
  split.
  - apply (proj1 (C9_teardown_on_every_exit
                    (failing_at 20 KeyboardInterrupt (at_time 2 35) 5)
                    (default_namespace SHUT_ARGS_DEFAULT) world0) 25%nat).
    + vm_compute. discriminate.
    + vm_compute. do 5 right. left. reflexivity.
  - apply (proj2 (C9_teardown_on_every_exit
                    (failing_at 20 KeyboardInterrupt (at_time 2 35) 5)
                    (default_namespace SHUT_ARGS_DEFAULT) world0) 20%nat 25%nat).
    + vm_compute. lia.
    + intros T c. exists KeyboardInterrupt. reflexivity.
    + vm_compute. lia.
Defined.

(** *** The scenarios of the specification *)

(** Window 1:30-9:00, 30 minutes, 10 percent.  At 02:00 with 5% usage the
    state becomes [Pending(02:30)]; at 02:20 it stays; at 02:35 the shutdown
    action fires. *)
Example scenario_arm :
  outcome (check_shutdown (steady (at_time 2 0) 5) default_shut_args 5 None)
          world0
  = Done (Some (at_time 2 30)).
Proof. reflexivity. Qed.

Example scenario_wait :
  outcome (check_shutdown (steady (at_time 2 20) 5) default_shut_args 5
                          (Some (at_time 2 30))) world0
  = Done (Some (at_time 2 30)).
Proof. reflexivity. Qed.

Example scenario_fire :
  emitted (check_shutdown (steady (at_time 2 35) 5) default_shut_args 5
                          (Some (at_time 2 30))) world0
  = [EvCall DtNow;
     EvLog WARNING "been idle long enough, shutting down now" [];
     EvCall (SubprocessCall ["systemctl"; "suspend"])].
Proof. reflexivity. Qed.

(** At 02:00 with 50% usage a pending shutdown is dropped, with a notice. *)
Example scenario_busy :
  check_shutdown (steady (at_time 2 0) 50) default_shut_args 50
                 (Some (at_time 2 30)) world0
  = (Done None,
     mk_world 0 [EvLog DEBUG "no shutdown, gpu busy" [];
                 EvLog INFO "GPU now busy again, shutdown aborted" []]).
Proof. reflexivity. Qed.

(** [--shutdown ''] disables the feature: no window, and a tick of the loop
    never reads the clock for the policy. *)
Example scenario_disabled (w : world) :
  parse_args (default_namespace "") w
  = (Done (PR_pair (default_namespace "") None), w).
Proof. reflexivity. Qed.

(** An hour beyond 23 passes the pattern and dies in [time(...)]. *)
Example hour_out_of_range (w : world) :
  outcome (parse_args (default_namespace "25:00-9:00,30,10")) w
  = Raised ValueError.
Proof. reflexivity. Qed.

(* ===================================================================== *)
(** ** Further properties of the script                                  *)
(* ===================================================================== *)

(** *** What [SHUT_ARGS_PATTERN] matches *)

Lemma string_app_assoc (a b c : string) : (a ++ b) ++ c = a ++ (b ++ c).
Proof. induction a as [|x a IH]; simpl; [reflexivity | now rewrite IH]. Qed.

Lemma string_length_app (a b : string) :
  String.length (a ++ b) = (String.length a + String.length b)%nat.
Proof. induction a as [|x a IH]; simpl; [reflexivity | now rewrite IH]. Qed.

Lemma digits_split (hi lo : nat) (s m r : string) :
  In (m, r) (Re.digits lo hi s) -> s = m ++ r.
Proof.
  revert lo s m r. induction hi as [|hi IH]; intros lo s m r Hin.
  - simpl in Hin. destruct lo; [|contradiction].
    destruct Hin as [E|[]]. now inversion E.
  - simpl in Hin. apply in_app_or in Hin. destruct Hin as [Hin|Hin].
    + destruct s as [|c s']; [contradiction|].
      destruct (Re.is_digit c); [|contradiction].
      apply in_map_iff in Hin. destruct Hin as [[m' r'] [E Hin]].
      inversion E; subst. apply IH in Hin. simpl. now rewrite Hin.
    + destruct lo; [|contradiction].
      destruct Hin as [E|[]]. now inversion E.
Qed.

Lemma lit_split (c : ascii) (s r : string) (u : unit) :
  In (u, r) (Re.lit c s) -> s = String c r.
Proof.
  unfold Re.lit. destruct s as [|c' s']; [contradiction|].
  destruct (Ascii.eqb_spec c c') as [->|]; [|contradiction].
  intros [E|[]]. now inversion E.
Qed.

Lemma dollar_split (s r : string) (u : unit) :
  In (u, r) (Re.dollar s) -> r = s /\ (s = "" \/ s = newline).
Proof.
  unfold Re.dollar. destruct s as [|c [|c' s']].
  - intros [E|[]]. inversion E. auto.
  - destruct (Ascii.eqb_spec c "010"%char) as [->|]; [|contradiction].
    intros [E|[]]. inversion E. auto.
  - contradiction.
Qed.

Lemma digits_between_of (lo hi : nat) (m : string) :
  all_digits m = true -> (lo <= String.length m <= hi)%nat ->
  digits_between lo hi m = true.
Proof.
  intros Hd [H1 H2]. unfold digits_between. rewrite Hd.
  apply Nat.leb_le in H1. apply Nat.leb_le in H2. now rewrite H1, H2.
Qed.

Lemma digits_between_inv (lo hi : nat) (m : string) :
  digits_between lo hi m = true ->
  all_digits m = true /\ (lo <= String.length m <= hi)%nat.
Proof.
  unfold digits_between. intros H.
  apply andb_true_iff in H. destruct H as [H H2].
  apply andb_true_iff in H. destruct H as [Hd H1].
  apply Nat.leb_le in H1. apply Nat.leb_le in H2. auto.
Qed.

(** Whatever [SHUT_ARGS_PATTERN] matches is made of six well-formed fields,
    and the text is these fields written out, with nothing after them but
    an optional newline. *)
Lemma SHUT_ARGS_PATTERN_shape (s r : string) (g : groupdict) :
  In (g, r) (SHUT_ARGS_PATTERN s) ->
  well_formed g = true
  /\ s = format_spec g ++ r /\ (r = "" \/ r = newline).
Proof.
  intros H. unfold SHUT_ARGS_PATTERN in H.
  do 12 step_seq H.
  unfold Re.pure in H. destruct H as [E|[]]. inversion E; subst; clear E.
  unfold Re.digits1 in *.
  repeat match goal with
         | Hl : In (_, _) (Re.lit _ _) |- _ => apply lit_split in Hl
         | Hd : In (_, _) (Re.dollar _) |- _ => apply dollar_split in Hd
         end.
  repeat match goal with
         | Hd : In (?m, ?r') (Re.digits ?lo ?hi ?s') |- _ =>
             pose proof (digits_split _ _ _ _ _ Hd);
             apply digits_sound in Hd
         end.
  repeat match goal with
         | Hc : _ /\ _ |- _ => destruct Hc
         end.
  subst. split; [|split].
  - unfold well_formed. cbn [start_h start_min end_h end_min
                             g_idle_duration g_idle_percent].
    rewrite !digits_between_of by (assumption || lia).
    repeat match goal with
           | Hd : all_digits _ = true |- _ => rewrite Hd; clear Hd
           end.
    match goal with
    | |- context [Nat.leb 1 (String.length ?d)] =>
        replace (Nat.leb 1 (String.length d)) with true
          by (symmetry; apply Nat.leb_le; lia)
    end.
    reflexivity.
  - unfold format_spec. cbn [start_h start_min end_h end_min
                             g_idle_duration g_idle_percent].
    rewrite !string_app_assoc. reflexivity.
  - assumption.
Qed.

Lemma string_app_nil_r (a : string) : a ++ "" = a.
Proof. induction a as [|x a IH]; simpl; [reflexivity | now rewrite IH]. Qed.

(** The greedy repetition offers first the whole run of digits it is given,
    when the run fills the repetition or is followed by no digit. *)
Lemma digits_head (m r : string) :
  all_digits m = true ->
  forall lo hi : nat,
    (lo <= String.length m <= hi)%nat ->
    String.length m = hi \/ stops_digits r = true ->
    exists tl, Re.digits lo hi (m ++ r) = (m, r) :: tl.
Proof.
  induction m as [|c m IH]; intros Hd lo hi Hlen Hstop.
  - simpl in Hlen. assert (lo = 0%nat) by lia. subst lo.
    destruct hi as [|hi]; [now exists []|].
    destruct Hstop as [Hstop|Hstop]; [discriminate|].
    simpl. destruct r as [|c r]; [now exists []|].
    simpl in Hstop. apply negb_true_iff in Hstop. rewrite Hstop.
    now exists [].
  - simpl in Hd. apply andb_true_iff in Hd. destruct Hd as [Hc Hd].
    simpl in Hlen. destruct hi as [|hi]; [lia|].
    destruct (IH Hd (Nat.pred lo) hi ltac:(lia)) as [tl E].
    { destruct Hstop as [Hstop|Hstop]; [left; simpl in Hstop; lia | now right]. }
    cbn [Re.digits append]. rewrite Hc, E. simpl. eauto.
Qed.

Lemma seq_head {A B} (p : Re.matcher A) (k : A -> Re.matcher B)
      (s r : string) (a : A) (x : B * string) :
  (exists tl, p s = (a, r) :: tl) ->
  (exists tl, k a r = x :: tl) ->
  exists tl, Re.seq p k s = x :: tl.
Proof.
  intros [tl1 E1] [tl2 E2]. unfold Re.seq. rewrite E1. simpl. rewrite E2.
  simpl. eauto.
Qed.

Lemma lit_head (c : ascii) (r : string) :
  exists tl, Re.lit c (String c r) = (tt, r) :: tl.
Proof. unfold Re.lit. rewrite Ascii.eqb_refl. eauto. Qed.

Lemma format_spec_nested (g : groupdict) (r : string) :
  format_spec g ++ r
  = start_h g ++ String ":" (start_min g ++ String "-" (end_h g ++ String ":"
      (end_min g ++ String "," (g_idle_duration g ++ String ","
         (g_idle_percent g ++ r))))).
Proof. unfold format_spec. rewrite !string_app_assoc. reflexivity. Qed.

(** Well-formed fields written out, with or without a final newline, are
    matched, and the first match gives the fields back. *)
Lemma SHUT_ARGS_PATTERN_matches (g : groupdict) (r : string) :
  well_formed g = true -> r = "" \/ r = newline ->
  exists tl, SHUT_ARGS_PATTERN (format_spec g ++ r) = (g, r) :: tl.
Proof.
  intros Hwf Hr. rewrite format_spec_nested.
  unfold well_formed in Hwf.
  repeat match goal with
         | H : _ && _ = true |- _ =>
             apply andb_true_iff in H; destruct H
         end.
  repeat match goal with
         | H : digits_between _ _ _ = true |- _ =>
             apply digits_between_inv in H; destruct H
         | H : Nat.leb _ _ = true |- _ => apply Nat.leb_le in H
         end.
  assert (Hstop : stops_digits r = true) by (destruct Hr; subst; reflexivity).
  unfold SHUT_ARGS_PATTERN.
  eapply seq_head; [apply digits_head; auto|].
  eapply seq_head; [apply lit_head|].
  eapply seq_head; [apply digits_head; auto|].
  eapply seq_head; [apply lit_head|].
  eapply seq_head; [apply digits_head; auto|].
  eapply seq_head; [apply lit_head|].
  eapply seq_head; [apply digits_head; auto|].
  eapply seq_head; [apply lit_head|].
  eapply seq_head.
  { unfold Re.digits1. apply digits_head; auto.
    rewrite string_length_app. lia. }
  eapply seq_head; [apply lit_head|].
  eapply seq_head; [apply digits_head; auto|].
  eapply seq_head.
  { destruct Hr; subst; now exists []. }
  destruct g. now exists [].
Qed.

Lemma re_match_fields (s : string) (g : groupdict) :
  Re.re_match SHUT_ARGS_PATTERN s = Some g ->
  well_formed g = true
  /\ (s = format_spec g \/ s = format_spec g ++ newline).
Proof.
  intros H. apply re_match_sound in H. destruct H as [r Hin].
  apply SHUT_ARGS_PATTERN_shape in Hin. destruct Hin as [Hwf [Hs Hr]].
  split; [exact Hwf|].
  destruct Hr; subst r; [left|right]; [now rewrite string_app_nil_r in Hs|exact Hs].
Qed.

(** X1: what [re.match(SHUT_ARGS_PATTERN, s)] returns is made of six
    well-formed fields, and [s] is exactly these fields written out as
    [H:MM-H:MM,minutes,percent], with at most a newline after them. *)
Theorem re_match_shape (s : string) (g : groupdict) :
  Re.re_match SHUT_ARGS_PATTERN s = Some g ->
  well_formed g = true
  /\ (s = format_spec g \/ s = format_spec g ++ newline).
Proof. exact (re_match_fields s g). Qed.

Lemma re_match_shape_witness :
  well_formed (mk_groupdict "1" "30" "9" "00" "30" "10") = true
  /\ (SHUT_ARGS_DEFAULT = format_spec (mk_groupdict "1" "30" "9" "00" "30" "10")
      \/ SHUT_ARGS_DEFAULT
         = format_spec (mk_groupdict "1" "30" "9" "00" "30" "10") ++ newline).
Proof.
  apply (re_match_shape SHUT_ARGS_DEFAULT
                        (mk_groupdict "1" "30" "9" "00" "30" "10")).
  reflexivity.
Defined.

Lemma re_match_of_fields (g : groupdict) :
  well_formed g = true ->
  Re.re_match SHUT_ARGS_PATTERN (format_spec g) = Some g
  /\ Re.re_match SHUT_ARGS_PATTERN (format_spec g ++ newline) = Some g.
Proof.
  intros Hwf. split.
  - destruct (SHUT_ARGS_PATTERN_matches g "" Hwf (or_introl eq_refl)) as [tl E].
    rewrite string_app_nil_r in E. unfold Re.re_match. now rewrite E.
  - destruct (SHUT_ARGS_PATTERN_matches g newline Hwf (or_intror eq_refl))
      as [tl E].
    unfold Re.re_match. now rewrite E.
Qed.

(** X2: parsing undoes writing: for well-formed fields, matching the
    written specification, with or without a final newline, returns exactly
    these fields. *)
Theorem re_match_format_spec (g : groupdict) :
  well_formed g = true ->
  Re.re_match SHUT_ARGS_PATTERN (format_spec g) = Some g
  /\ Re.re_match SHUT_ARGS_PATTERN (format_spec g ++ newline) = Some g.
Proof. exact (re_match_of_fields g). Qed.

Lemma re_match_format_spec_witness :
  Re.re_match SHUT_ARGS_PATTERN
    (format_spec (mk_groupdict "22" "00" "6" "00" "045" "07"))
  = Some (mk_groupdict "22" "00" "6" "00" "045" "07").
Proof.
  apply (re_match_format_spec (mk_groupdict "22" "00" "6" "00" "045" "07")).
  reflexivity.
Defined.

(** *** What [parse_args] does with a well-formed specification *)

Lemma well_formed_ranges (g : groupdict) :
  well_formed g = true ->
  0 <= int (start_h g) < 100 /\ 0 <= int (start_min g) < 100
  /\ 0 <= int (end_h g) < 100 /\ 0 <= int (end_min g) < 100
  /\ 0 <= int (g_idle_duration g) /\ 0 <= int (g_idle_percent g) < 100.
Proof.
  intros Hwf. unfold well_formed in Hwf.
  repeat match goal with
         | H : _ && _ = true |- _ =>
             apply andb_true_iff in H; destruct H
         end.
  repeat match goal with
         | H : digits_between _ _ _ = true |- _ =>
             apply digits_between_inv in H; destruct H as [? [? ?]]
         end.
  repeat match goal with
         | Hd : all_digits ?f = true, Hl : (String.length ?f <= 2)%nat |- _ =>
             pose proof (int_range f 2 Hd Hl); clear Hl
         end.
  match goal with
  | Hd : all_digits (g_idle_duration g) = true |- _ =>
      pose proof (int_range _ _ Hd (Nat.le_refl _))
  end.
  change (10 ^ Z.of_nat 2) with 100 in *.
  intuition lia.
Qed.

Lemma format_spec_not_empty (g : groupdict) (r : string) :
  well_formed g = true -> exists c s, format_spec g ++ r = String c s.
Proof.
  intros Hwf. rewrite format_spec_nested. unfold well_formed in Hwf.
  destruct (start_h g) as [|c s]; [discriminate|]. simpl. eauto.
Qed.

Lemma parse_args_of_fields (ns : namespace) (g : groupdict) (w : world) :
  well_formed g = true ->
  shutdown ns = format_spec g \/ shutdown ns = format_spec g ++ newline ->
  parse_args ns w
  = (if (int (start_h g) <=? 23) && (int (start_min g) <=? 59)
        && (int (end_h g) <=? 23) && (int (end_min g) <=? 59)
     then if int (g_idle_duration g) <? 1440000000000
          then Done (PR_pair ns (Some (window_of g)))
          else Raised OverflowError
     else Raised ValueError,
     w).
Proof.
  intros Hwf Hs.
  assert (Hm : Re.re_match SHUT_ARGS_PATTERN (shutdown ns) = Some g).
  { destruct Hs as [-> | ->]; apply re_match_of_fields; exact Hwf. }
  assert (Hne : exists c s, shutdown ns = String c s).
  { destruct Hs as [-> | ->].
    - destruct (format_spec_not_empty g "" Hwf) as [c [s E]].
      rewrite string_app_nil_r in E. eauto.
    - apply format_spec_not_empty. exact Hwf. }
  destruct Hne as [c [s Hne]].
  unfold parse_args. rewrite Hne. rewrite <- Hne. rewrite Hm.
  destruct (well_formed_ranges g Hwf) as [R1 [R2 [R3 [R4 [R5 R6]]]]].
  unfold time_new.
  replace (0 <=? int (start_h g)) with true by (symmetry; apply Z.leb_le; lia).
  replace (0 <=? int (start_min g)) with true by (symmetry; apply Z.leb_le; lia).
  replace (0 <=? int (end_h g)) with true by (symmetry; apply Z.leb_le; lia).
  replace (0 <=? int (end_min g)) with true by (symmetry; apply Z.leb_le; lia).
  cbn [andb].
  destruct (int (start_h g) <=? 23); cbn [andb]; [|reflexivity].
  destruct (int (start_min g) <=? 59); cbn [andb]; [|reflexivity].
  cbn [or_raise bind ret Monad_M].
  destruct (int (end_h g) <=? 23); cbn [andb]; [|reflexivity].
  destruct (int (end_min g) <=? 59); cbn [andb]; [|reflexivity].
  cbn [or_raise bind ret Monad_M].
  unfold timedelta_of_seconds, MAX_DELTA_DAYS.
  assert (Hq : 0 <= 60 * int (g_idle_duration g) / 86400)
    by (apply Z.div_pos; lia).
  rewrite Z.abs_eq by exact Hq.
  destruct (int (g_idle_duration g) <? 1440000000000) eqn:Hb.
  - apply Z.ltb_lt in Hb.
    replace (60 * int (g_idle_duration g) / 86400 <=? 999999999) with true.
    + reflexivity.
    + symmetry. apply Z.leb_le.
      assert (60 * int (g_idle_duration g) / 86400 < 1000000000); [|lia].
      apply Z.div_lt_upper_bound; lia.
  - apply Z.ltb_ge in Hb.
    replace (60 * int (g_idle_duration g) / 86400 <=? 999999999) with false.
    + reflexivity.
    + symmetry. apply Z.leb_gt.
      assert (1000000000 <= 60 * int (g_idle_duration g) / 86400); [|lia].
      apply Z.div_le_lower_bound; lia.
Qed.

(** X3: a well-formed specification is never reported as a parse failure.
    [parse_args] prints nothing; it accepts the specification, with the
    window its fields stand for, exactly when both hours are at most 23,
    both minutes at most 59 and the idle minutes below 1440 * 10^9; an hour
    or minute beyond that raises [ValueError], and more idle minutes raise
    [OverflowError]. *)
Theorem parse_args_well_formed (ns : namespace) (g : groupdict) (w : world) :
  well_formed g = true ->
  shutdown ns = format_spec g \/ shutdown ns = format_spec g ++ newline ->
  parse_args ns w
  = (if (int (start_h g) <=? 23) && (int (start_min g) <=? 59)
        && (int (end_h g) <=? 23) && (int (end_min g) <=? 59)
     then if int (g_idle_duration g) <? 1440000000000
          then Done (PR_pair ns (Some (window_of g)))
          else Raised OverflowError
     else Raised ValueError,
     w).
Proof. exact (parse_args_of_fields ns g w). Qed.

Lemma parse_args_well_formed_witness :
  parse_args (default_namespace "23:59-0:00,90,99") world0
  = (Done (PR_pair (default_namespace "23:59-0:00,90,99")
             (Some (window_of (mk_groupdict "23" "59" "0" "00" "90" "99")))),
     world0).
Proof.
  apply (parse_args_well_formed (default_namespace "23:59-0:00,90,99")
                                (mk_groupdict "23" "59" "0" "00" "90" "99")
                                world0);
    [reflexivity | left; reflexivity].
Defined.

(** *** An accepted specification, tied to its text *)

(** Two runs of digits, each followed by something that is no digit: if
    the texts are equal, so are the runs and what follows them. *)
Lemma digits_prefix_unique (m m' r r' : string) :
  all_digits m = true -> all_digits m' = true ->
  stops_digits r = true -> stops_digits r' = true ->
  m ++ r = m' ++ r' -> m = m' /\ r = r'.
Proof.
  revert m'. induction m as [|c m IH]; intros m' Hm Hm' Hr Hr' E.
  - destruct m' as [|c' m']; [auto|]. simpl in E. subst r.
    simpl in Hm', Hr. apply andb_true_iff in Hm'. destruct Hm' as [Hc _].
    rewrite Hc in Hr. discriminate.
  - destruct m' as [|c' m'].
    + simpl in E. subst r'.
      simpl in Hm, Hr'. apply andb_true_iff in Hm. destruct Hm as [Hc _].
      rewrite Hc in Hr'. discriminate.
    + simpl in E. injection E as <- E.
      simpl in Hm, Hm'.
      apply andb_true_iff in Hm. apply andb_true_iff in Hm'.
      destruct (IH m' (proj2 Hm) (proj2 Hm') Hr Hr' E) as [-> ->]. auto.
Qed.

Lemma well_formed_digit_fields (g : groupdict) :
  well_formed g = true -> digit_fields g = true.
Proof.
  unfold well_formed, digit_fields, digits_between. intros H.
  repeat match goal with
         | H : _ && _ = true |- _ =>
             apply andb_true_iff in H; destruct H
         end.
  repeat (apply andb_true_iff; split); assumption.
Qed.

(** A specification is written from its digit fields in one way only. *)
Lemma format_spec_unique (g g' : groupdict) (r' : string) :
  digit_fields g = true -> digit_fields g' = true ->
  r' = "" \/ r' = newline ->
  format_spec g = format_spec g' ++ r' -> g = g'.
Proof.
  intros Hg Hg' Hr E.
  rewrite <- (string_app_nil_r (format_spec g)) in E.
  rewrite !format_spec_nested in E.
  unfold digit_fields in Hg, Hg'.
  repeat match goal with
         | H : _ && _ = true |- _ =>
             apply andb_true_iff in H; destruct H
         end.
  assert (Hstop : stops_digits r' = true) by (destruct Hr; subst; reflexivity).
  repeat match goal with
         | E : _ ++ String _ _ = _ ++ String _ _ |- _ =>
             apply digits_prefix_unique in E;
             [destruct E as [? E]; injection E as E
             | assumption | assumption | reflexivity | reflexivity]
         end.
  apply digits_prefix_unique in E;
    [|assumption|assumption|reflexivity|assumption].
  destruct E as [? _]. destruct g, g'. simpl in *. congruence.
Qed.

(** A percent of more than 99, however its digits are written, is not
    matched by the pattern. *)
Lemma percent_over_99_no_match (g : groupdict) :
  digit_fields g = true -> 99 < int (g_idle_percent g) ->
  Re.re_match SHUT_ARGS_PATTERN (format_spec g) = None.
Proof.
  intros Hg Hp.
  destruct (Re.re_match SHUT_ARGS_PATTERN (format_spec g)) as [g'|] eqn:Hm;
    [exfalso|reflexivity].
  destruct (re_match_fields _ _ Hm) as [Hwf Hs].
  assert (g = g').
  { destruct Hs as [Hs|Hs].
    - apply (format_spec_unique g g' ""); auto using well_formed_digit_fields.
      now rewrite string_app_nil_r.
    - apply (format_spec_unique g g' newline);
        auto using well_formed_digit_fields. }
  subst g'. pose proof (well_formed_ranges g Hwf). lia.
Qed.

Lemma format_spec_is_text (g : groupdict) :
  exists c s, format_spec g = String c s.
Proof.
  rewrite <- (string_app_nil_r (format_spec g)), format_spec_nested.
  destruct (start_h g); simpl; eauto.
Qed.

(** C8, as the code has it: a [--shutdown] specification that [parse_args]
    accepts is, as a text, six well-formed fields written out as
    [H:MM-H:MM,minutes,percent] with at most a newline after them; the window
    it yields has the value of the percent field, of one or two digits, as
    [idle_percent], which lies in [0,99], hence in [0,100], and the given
    number of minutes as [idle_duration], which is at least 0 and may be 0;
    the window satisfies the invariant of the data model exactly when that
    number is positive.  And a specification written from digit fields whose
    percent is more than 99 is refused: [parse_args] returns 2. *)
Theorem C8_accepted_window (ns : namespace) (w : world) (sa : shut_args) :
  accepted ns w sa ->
  0 <= idle_percent sa <= 99
  /\ 0 <= int (g_idle_duration (groups sa))
  /\ timedelta_to_us (idle_duration sa)
     = 60 * int (g_idle_duration (groups sa)) * US_PER_SECOND
  /\ (window_invariant sa = true <-> 0 < int (g_idle_duration (groups sa)))
  /\ well_formed (groups sa) = true
  /\ (shutdown ns = format_spec (groups sa)
      \/ shutdown ns = format_spec (groups sa) ++ newline)
  /\ idle_percent sa = int (g_idle_percent (groups sa))
  /\ (forall (ns' : namespace) (g : groupdict) (w' : world),
         shutdown ns' = format_spec g ->
         digit_fields g = true ->
         99 < int (g_idle_percent g) ->
         parse_args ns' w'
         = (Done (PR_int 2),
            mk_world (w_seq w')
              (w_trace w' ++ [EvStderr "failed to parse shutdown args {0!r}"
                                       [AStr (shutdown ns')]]))).
Proof.
  intros Hacc.
  destruct (accepted_window_bounds ns w sa Hacc) as [B1 [B2 [B3 B4]]].
  split; [exact B1|]. split; [exact B2|]. split; [exact B3|].
  split; [exact B4|].
  assert (Hm : exists g, Re.re_match SHUT_ARGS_PATTERN (shutdown ns) = Some g).
  { unfold accepted, outcome, parse_args in Hacc.
    destruct (shutdown ns) as [|c s]; [discriminate|].
    destruct (Re.re_match SHUT_ARGS_PATTERN (String c s)) as [g|];
      [eauto|discriminate]. }
  destruct Hm as [g Hm].
  destruct (re_match_fields _ _ Hm) as [Hwf Hs].
  assert (Hsa : sa = window_of g).
  { unfold accepted, outcome in Hacc.
    rewrite (parse_args_of_fields ns g w Hwf Hs) in Hacc. cbn [fst] in Hacc.
    destruct ((int (start_h g) <=? 23) && (int (start_min g) <=? 59)
              && (int (end_h g) <=? 23) && (int (end_min g) <=? 59));
      [|discriminate].
    destruct (int (g_idle_duration g) <? 1440000000000); [|discriminate].
    now injection Hacc as <-. }
  subst sa. cbn [window_of groups idle_percent].
  split; [exact Hwf|]. split; [exact Hs|]. split; [reflexivity|].
  intros ns' g' w' Hs' Hd Hp.
  destruct (format_spec_is_text g') as [c [s Hne]].
  unfold parse_args. rewrite Hs', Hne. rewrite <- Hne.
  now rewrite (percent_over_99_no_match g' Hd Hp).
Qed.

Lemma C8_witness :
  accepted (default_namespace SHUT_ARGS_DEFAULT) world0 default_shut_args
  /\ 0 <= idle_percent default_shut_args <= 99
  /\ (shutdown (default_namespace SHUT_ARGS_DEFAULT)
      = format_spec (groups default_shut_args)
      \/ shutdown (default_namespace SHUT_ARGS_DEFAULT)
         = format_spec (groups default_shut_args) ++ newline)
  /\ outcome (parse_args (default_namespace "1:30-9:00,30,150")) world0
     = Done (PR_int 2).
Proof.
  split; [reflexivity|].
  pose proof (C8_accepted_window (default_namespace SHUT_ARGS_DEFAULT) world0
                                 default_shut_args eq_refl)
    as [B1 [_ [_ [_ [_ [Hs [_ Hrej]]]]]]].
  split; [exact B1|]. split; [exact Hs|].
  unfold outcome.
  rewrite (Hrej (default_namespace "1:30-9:00,30,150")
                (mk_groupdict "1" "30" "9" "00" "30" "150") world0
                eq_refl eq_refl eq_refl).
  reflexivity.
Defined.

(** X4: a window that [parse_args] accepts is the one its fields stand
    for: its start and end are times of the day on a whole minute, and its
    idle duration is a normalised timedelta of at most 999999999 days,
    never negative. *)
Theorem accepted_window_valid (ns : namespace) (w : world) (sa : shut_args) :
  accepted ns w sa ->
  sa = window_of (groups sa)
  /\ well_formed (groups sa) = true
  /\ valid_time (start sa) = true /\ valid_time (end_ sa) = true
  /\ timedelta_normalized (idle_duration sa) = true
  /\ 0 <= days (idle_duration sa) <= MAX_DELTA_DAYS.
Proof.
  intros Hacc.
  assert (Hm : exists g, Re.re_match SHUT_ARGS_PATTERN (shutdown ns) = Some g).
  { unfold accepted, outcome, parse_args in Hacc.
    destruct (shutdown ns) as [|c s]; [discriminate|].
    destruct (Re.re_match SHUT_ARGS_PATTERN (String c s)) as [g|];
      [eauto|discriminate]. }
  destruct Hm as [g Hm].
  destruct (re_match_fields _ _ Hm) as [Hwf Hs].
  unfold accepted, outcome in Hacc.
  rewrite (parse_args_of_fields ns g w Hwf Hs) in Hacc. cbn [fst] in Hacc.
  destruct (well_formed_ranges g Hwf) as [R1 [R2 [R3 [R4 [R5 R6]]]]].
  destruct ((int (start_h g) <=? 23) && (int (start_min g) <=? 59)
            && (int (end_h g) <=? 23) && (int (end_min g) <=? 59)) eqn:Ht;
    [|discriminate].
  destruct (int (g_idle_duration g) <? 1440000000000) eqn:Hb; [|discriminate].
  injection Hacc as <-.
  repeat (apply andb_true_iff in Ht; destruct Ht as [Ht ?]).
  repeat match goal with
         | H : (_ <=? _) = true |- _ => apply Z.leb_le in H
         end.
  apply Z.ltb_lt in Hb.
  pose proof (Z.mod_pos_bound (60 * int (g_idle_duration g)) 86400
                ltac:(lia)) as Hmod.
  assert (Hq : 0 <= 60 * int (g_idle_duration g) / 86400 < 1000000000).
  { split; [apply Z.div_pos; lia | apply Z.div_lt_upper_bound; lia]. }
  cbn [window_of groups start end_ idle_duration days].
  split; [reflexivity|]. split; [exact Hwf|].
  unfold valid_time, timedelta_normalized, MAX_DELTA_DAYS.
  cbn [hour minute second microsecond seconds microseconds].
  repeat split;
    repeat (apply andb_true_iff; split);
    try (apply Z.leb_le; lia); try (apply Z.ltb_lt; lia); lia.
Qed.

Lemma accepted_window_valid_witness :
  accepted (default_namespace SHUT_ARGS_DEFAULT) world0 default_shut_args
  /\ valid_time (start default_shut_args) = true.
Proof.
  split; [reflexivity|].
  apply (accepted_window_valid (default_namespace SHUT_ARGS_DEFAULT) world0
                               default_shut_args).
  reflexivity.
Defined.

(** *** The shutdown policy, case by case *)

Lemma check_shutdown_clock_fails
  (env : oracle) (sa : shut_args) (gpu_usage : Z)
  (planned_shut : option datetime) (w : world) (e : exn) :
  gpu_usage <= idle_percent sa ->
  env (w_seq w) datetime DtNow = inr e ->
  check_shutdown env sa gpu_usage planned_shut w
  = (Raised e, mk_world (S (w_seq w)) (w_trace w ++ [EvCall DtNow])).
Proof.
  intros Hidle Hclock. unfold check_shutdown.
  rewrite (idle_test sa gpu_usage Hidle). cbn.
  now rewrite (ext_raised _ _ _ _ Hclock).
Qed.

(** Every call of [check_shutdown] goes one of four ways. *)
Lemma check_shutdown_cases
  (env : oracle) (sa : shut_args) (gpu_usage : Z)
  (planned_shut : option datetime) (w : world) :
  (idle_percent sa < gpu_usage
   /\ check_shutdown env sa gpu_usage planned_shut w
      = (Done None,
         mk_world (w_seq w)
           (w_trace w ++ EvLog DEBUG "no shutdown, gpu busy" []
              :: abort_notice planned_shut
                   "GPU now busy again, shutdown aborted")))
  \/ (gpu_usage <= idle_percent sa
      /\ exists e,
           env (w_seq w) datetime DtNow = inr e
           /\ check_shutdown env sa gpu_usage planned_shut w
              = (Raised e,
                 mk_world (S (w_seq w)) (w_trace w ++ [EvCall DtNow])))
  \/ (gpu_usage <= idle_percent sa
      /\ exists now_full n,
           env (w_seq w) datetime DtNow = inl now_full
           /\ inside_window (start sa) (end_ sa) (datetime_time now_full)
              = false
           /\ check_shutdown env sa gpu_usage planned_shut w
              = (Done None,
                 mk_world (S (w_seq w))
                   (w_trace w ++ outside_events planned_shut n)))
  \/ (gpu_usage <= idle_percent sa
      /\ exists now_full,
           env (w_seq w) datetime DtNow = inl now_full
           /\ inside_window (start sa) (end_ sa) (datetime_time now_full)
              = true
           /\ check_shutdown env sa gpu_usage planned_shut w
              = in_range_step env sa planned_shut now_full w).
Proof.
  destruct (Z.lt_ge_cases (idle_percent sa) gpu_usage) as [Hbusy|Hidle].
  { left. split; [exact Hbusy|]. now apply check_shutdown_busy. }
  right.
  destruct (env (w_seq w) datetime DtNow) as [now_full|e] eqn:Hclock.
  2:{ left. split; [exact Hidle|]. exists e. split; [reflexivity|].
      now apply check_shutdown_clock_fails. }
  right.
  destruct (inside_window (start sa) (end_ sa) (datetime_time now_full))
    eqn:Hin.
  { right. split; [exact Hidle|]. exists now_full.
    split; [reflexivity|]. split; [exact Hin|].
    now apply check_shutdown_in_range. }
  left. split; [exact Hidle|].
  pose proof Hin as Hin'. unfold inside_window in Hin'.
  destruct (time_lt (start sa) (end_ sa)) eqn:L.
  - exists now_full, 0%nat. split; [reflexivity|]. split; [exact Hin|].
    now apply (check_shutdown_range1 env sa gpu_usage planned_shut w now_full).
  - destruct (time_gt (start sa) (end_ sa)) eqn:G; [|discriminate].
    apply negb_false_iff in Hin'.
    exists now_full, 1%nat. split; [reflexivity|]. split; [exact Hin|].
    now apply (check_shutdown_range2 env sa gpu_usage planned_shut w now_full).
Qed.

Lemma outside_events_quiet (planned_shut : option datetime) (n : nat) :
  count is_suspend (outside_events planned_shut n) = 0%nat.
Proof. destruct n; simpl; apply abort_notice_quiet. Qed.

Lemma check_shutdown_fires
  (env : oracle) (sa : shut_args) (gpu_usage : Z)
  (planned_shut : option datetime) (w : world) :
  (count is_suspend
     (emitted (check_shutdown env sa gpu_usage planned_shut) w) <= 1)%nat
  /\ (count is_suspend
        (emitted (check_shutdown env sa gpu_usage planned_shut) w) = 1%nat
      <-> exists planned now_full,
            planned_shut = Some planned
            /\ gpu_usage <= idle_percent sa
            /\ env (w_seq w) datetime DtNow = inl now_full
            /\ inside_window (start sa) (end_ sa) (datetime_time now_full)
               = true
            /\ datetime_ge now_full planned = true).
Proof.
  destruct (check_shutdown_cases env sa gpu_usage planned_shut w)
    as [[Hb E] | [[Hi [e [Hc E]]]
                 | [[Hi [now [n [Hc [Hin E]]]]] | [Hi [now [Hc [Hin E]]]]]]].
  - erewrite emitted_app by exact E.
    replace (count is_suspend _) with 0%nat by (now destruct planned_shut).
    split; [lia|]. split; [discriminate|].
    intros [p [t [_ [Hle _]]]]. lia.
  - erewrite emitted_app by exact E.
    split; [unfold count; simpl; lia|]. split; [discriminate|].
    intros [p [t [_ [_ [Hc' _]]]]]. congruence.
  - erewrite emitted_app by exact E. rewrite outside_events_quiet.
    split; [lia|]. split; [discriminate|].
    intros [p [t [_ [_ [Hc' [Hin' _]]]]]]. congruence.
  - rewrite (emitted_eq _ _ _ E), in_range_step_emitted.
    unfold in_range_events.
    destruct planned_shut as [planned|].
    + destruct (datetime_lt now planned) eqn:Hlt.
      * split; [unfold count; simpl; lia|]. split; [discriminate|].
        intros [p [t [Hp [_ [Hc' [_ Hge]]]]]].
        injection Hp as <-.
        assert (t = now) by congruence. subst t.
        rewrite datetime_ge_lt, Hlt in Hge. discriminate.
      * split; [unfold count; simpl; lia|]. split; [|reflexivity].
        intros _. exists planned, now. repeat split; try assumption.
        now rewrite datetime_ge_lt, Hlt.
    + split; [unfold count; simpl; lia|]. split; [discriminate|].
      intros [p [t [Hp _]]]. discriminate.
Qed.

(** X5: one call of [check_shutdown] suspends the machine at most once,
    and it does so exactly when a shutdown is pending, the usage is at or
    below the threshold, the clock can be read, the time of day is inside
    the window and the planned time is reached. *)
Theorem check_shutdown_fires_iff
  (env : oracle) (sa : shut_args) (gpu_usage : Z)
  (planned_shut : option datetime) (w : world) :
  (count is_suspend
     (emitted (check_shutdown env sa gpu_usage planned_shut) w) <= 1)%nat
  /\ (count is_suspend
        (emitted (check_shutdown env sa gpu_usage planned_shut) w) = 1%nat
      <-> exists planned now_full,
            planned_shut = Some planned
            /\ gpu_usage <= idle_percent sa
            /\ env (w_seq w) datetime DtNow = inl now_full
            /\ inside_window (start sa) (end_ sa) (datetime_time now_full)
               = true
            /\ datetime_ge now_full planned = true).
Proof. exact (check_shutdown_fires env sa gpu_usage planned_shut w). Qed.

Lemma check_shutdown_returns_planned
  (env : oracle) (sa : shut_args) (gpu_usage : Z)
  (planned_shut : option datetime) (w : world) (t : datetime) :
  outcome (check_shutdown env sa gpu_usage planned_shut) w = Done (Some t) ->
  match planned_shut with
  | Some planned => t = planned
  | None =>
      exists now_full,
        env (w_seq w) datetime DtNow = inl now_full
        /\ datetime_add now_full (idle_duration sa) = Some t
  end.
Proof.
  unfold outcome.
  destruct (check_shutdown_cases env sa gpu_usage planned_shut w)
    as [[Hb E] | [[Hi [e [Hc E]]]
                 | [[Hi [now [n [Hc [Hin E]]]]] | [Hi [now [Hc [Hin E]]]]]]];
    rewrite E; try discriminate.
  unfold in_range_step. destruct planned_shut as [planned|].
  - destruct (datetime_lt now planned).
    + cbn [fst]. now intros [= <-].
    + cbn [fst].
      destruct (env (S (w_seq w)) Z (SubprocessCall ["systemctl"; "suspend"]));
        discriminate.
  - cbn [fst]. destruct (datetime_add now (idle_duration sa)) as [t'|] eqn:Ha;
      [|discriminate].
    intros [= <-]. exists now. auto.
Qed.

(** X6: the planned time that [check_shutdown] returns is never a new one
    while a shutdown is pending: it is the pending time itself; from
    Inactive it is the clock reading plus the idle duration. *)
Theorem check_shutdown_planned_time
  (env : oracle) (sa : shut_args) (gpu_usage : Z)
  (planned_shut : option datetime) (w : world) (t : datetime) :
  outcome (check_shutdown env sa gpu_usage planned_shut) w = Done (Some t) ->
  match planned_shut with
  | Some planned => t = planned
  | None =>
      exists now_full,
        env (w_seq w) datetime DtNow = inl now_full
        /\ datetime_add now_full (idle_duration sa) = Some t
  end.
Proof.
  exact (check_shutdown_returns_planned env sa gpu_usage planned_shut w t).
Qed.

Lemma check_shutdown_planned_time_witness :
  exists now_full,
    steady (at_time 2 0) 5 (w_seq world0) datetime DtNow = inl now_full
    /\ datetime_add now_full (idle_duration default_shut_args)
       = Some (at_time 2 30).
Proof.
  apply (check_shutdown_planned_time (steady (at_time 2 0) 5)
                                     default_shut_args 5 None world0
                                     (at_time 2 30)).
  reflexivity.
Defined.

(** X7: a pending shutdown is never dropped silently.  When
    [check_shutdown] turns [Pending] into [None], either it has suspended
    the machine, or it has logged exactly one info record saying that the
    shutdown was aborted; never both. *)
Theorem pending_not_dropped_silently
  (env : oracle) (sa : shut_args) (gpu_usage : Z)
  (planned : datetime) (w : world) :
  outcome (check_shutdown env sa gpu_usage (Some planned)) w = Done None ->
  (count is_suspend
     (emitted (check_shutdown env sa gpu_usage (Some planned)) w) = 1%nat
   /\ count is_abort_notice
        (emitted (check_shutdown env sa gpu_usage (Some planned)) w) = 0%nat)
  \/ (count is_suspend
        (emitted (check_shutdown env sa gpu_usage (Some planned)) w) = 0%nat
      /\ count is_abort_notice
           (emitted (check_shutdown env sa gpu_usage (Some planned)) w)
         = 1%nat).
Proof.
  unfold outcome.
  destruct (check_shutdown_cases env sa gpu_usage (Some planned) w)
    as [[Hb E] | [[Hi [e [Hc E]]]
                 | [[Hi [now [n [Hc [Hin E]]]]] | [Hi [now [Hc [Hin E]]]]]]].
  - intros _. right. erewrite emitted_app by exact E. split; reflexivity.
  - rewrite E. discriminate.
  - intros _. right. erewrite emitted_app by exact E.
    destruct n; split; reflexivity.
  - rewrite (emitted_eq _ _ _ E), in_range_step_emitted, E.
    unfold in_range_step, in_range_events.
    destruct (datetime_lt now planned); [discriminate|].
    intros _. left. split; reflexivity.
Qed.

Lemma pending_not_dropped_silently_witness :
  (count is_suspend
     (emitted (check_shutdown (steady (at_time 10 0) 5) default_shut_args 5
                              (Some (at_time 9 10))) world0) = 1%nat
   /\ count is_abort_notice
        (emitted (check_shutdown (steady (at_time 10 0) 5) default_shut_args 5
                                 (Some (at_time 9 10))) world0) = 0%nat)
  \/ (count is_suspend
        (emitted (check_shutdown (steady (at_time 10 0) 5) default_shut_args 5
                                 (Some (at_time 9 10))) world0) = 0%nat
      /\ count is_abort_notice
           (emitted (check_shutdown (steady (at_time 10 0) 5)
                                    default_shut_args 5
                                    (Some (at_time 9 10))) world0) = 1%nat).
Proof.
  apply (pending_not_dropped_silently (steady (at_time 10 0) 5)
                                      default_shut_args 5 (at_time 9 10)
                                      world0).
  reflexivity.
Defined.

(** *** Times as microseconds *)

Lemma valid_time_ranges (t : time) :
  valid_time t = true ->
  0 <= hour t < 24 /\ 0 <= minute t < 60 /\ 0 <= second t < 60
  /\ 0 <= microsecond t < 1000000.
Proof.
  unfold valid_time. intros H.
  repeat (apply andb_true_iff in H; destruct H as [H ?]).
  repeat match goal with
         | H : (_ <=? _) = true |- _ => apply Z.leb_le in H
         | H : (_ <? _) = true |- _ => apply Z.ltb_lt in H
         end.
  lia.
Qed.

(** On valid times the field-by-field comparison is the comparison of the
    microseconds since midnight. *)
Lemma time_cmp_us (a b : time) :
  valid_time a = true -> valid_time b = true ->
  time_cmp a b = (time_to_us a ?= time_to_us b).
Proof.
  intros Ha Hb.
  apply valid_time_ranges in Ha. apply valid_time_ranges in Hb.
  unfold time_cmp, time_fields, time_to_us, US_PER_SECOND. cbn [cmp_tuple].
  symmetry.
  destruct (Z.compare_spec (hour a) (hour b));
    [destruct (Z.compare_spec (minute a) (minute b));
     [destruct (Z.compare_spec (second a) (second b));
      [destruct (Z.compare_spec (microsecond a) (microsecond b))| |]| |]| |];
    first [apply Z.compare_eq_iff | apply Z.compare_lt_iff
           | apply Z.compare_gt_iff]; lia.
Qed.

Lemma datetime_cmp_us (a b : datetime) :
  valid_time (tod a) = true -> valid_time (tod b) = true ->
  datetime_cmp a b = (datetime_to_us a ?= datetime_to_us b).
Proof.
  intros Ha Hb. pose proof (time_cmp_us _ _ Ha Hb) as Ht.
  apply valid_time_ranges in Ha. apply valid_time_ranges in Hb.
  unfold datetime_cmp. cbn [cmp_tuple].
  fold (time_fields (tod a)). fold (time_fields (tod b)).
  change (cmp_tuple (time_fields (tod a)) (time_fields (tod b)))
    with (time_cmp (tod a) (tod b)).
  rewrite Ht. unfold datetime_to_us, US_PER_DAY, US_PER_SECOND.
  assert (0 <= time_to_us (tod a) < 86400 * 1000000
          /\ 0 <= time_to_us (tod b) < 86400 * 1000000)
    by (unfold time_to_us, US_PER_SECOND; lia).
  symmetry.
  destruct (Z.compare_spec (ordinal a) (ordinal b)).
  - subst. destruct (Z.compare_spec (time_to_us (tod a)) (time_to_us (tod b)));
      first [apply Z.compare_eq_iff | apply Z.compare_lt_iff
             | apply Z.compare_gt_iff]; lia.
  - apply Z.compare_lt_iff. lia.
  - apply Z.compare_gt_iff. lia.
Qed.

(** Microseconds since midnight and times of day convert back and forth. *)
Lemma time_of_us_valid (us : Z) :
  0 <= us < US_PER_DAY ->
  valid_time (time_of_us us) = true /\ time_to_us (time_of_us us) = us.
Proof.
  unfold US_PER_DAY, US_PER_SECOND. intros Hus.
  unfold time_of_us, time_to_us, valid_time, US_PER_SECOND.
  cbn [hour minute second microsecond].
  split.
  - repeat (apply andb_true_iff; split);
      first [apply Z.leb_le | apply Z.ltb_lt];
      Z.div_mod_to_equations; lia.
  - Z.div_mod_to_equations. lia.
Qed.

(** [dt + delta] adds the microseconds. *)
Lemma datetime_add_us (dt t : datetime) (delta : timedelta) :
  valid_time (tod dt) = true -> timedelta_normalized delta = true ->
  datetime_add dt delta = Some t ->
  valid_time (tod t) = true
  /\ datetime_to_us t = datetime_to_us dt + timedelta_to_us delta.
Proof.
  intros Hv Hn Hadd. apply valid_time_ranges in Hv.
  unfold timedelta_normalized in Hn.
  repeat (apply andb_true_iff in Hn; destruct Hn as [Hn ?]).
  repeat match goal with
         | H : (_ <=? _) = true |- _ => apply Z.leb_le in H
         | H : (_ <? _) = true |- _ => apply Z.ltb_lt in H
         end.
  unfold datetime_add in Hadd.
  set (us := time_to_us (tod dt) + seconds delta * US_PER_SECOND
             + microseconds delta) in *.
  destruct ((1 <=? ordinal dt + days delta + us / US_PER_DAY)
            && (ordinal dt + days delta + us / US_PER_DAY <=? MAXORDINAL));
    [|discriminate].
  injection Hadd as <-. cbn [tod ordinal].
  assert (Hus : 0 <= us).
  { unfold us, time_to_us, US_PER_SECOND. lia. }
  assert (HD : 0 < US_PER_DAY) by (unfold US_PER_DAY, US_PER_SECOND; lia).
  pose proof (Z.mod_pos_bound us US_PER_DAY HD) as Hm.
  destruct (time_of_us_valid (us mod US_PER_DAY) Hm) as [Hval Hrt].
  split; [exact Hval|].
  unfold datetime_to_us. cbn [tod ordinal]. rewrite Hrt.
  pose proof (Z.div_mod us US_PER_DAY ltac:(lia)) as Hdm.
  unfold timedelta_to_us.
  replace (time_to_us (tod dt))
    with (us - seconds delta * US_PER_SECOND - microseconds delta)
    by (unfold us; lia).
  unfold US_PER_DAY in *. lia.
Qed.

(** X8: the machine is suspended only after the idle duration has passed
    on the clock.  If an evaluation from Inactive, reading [now0], plans a
    shutdown, and an evaluation on that pending shutdown, reading [now1],
    suspends the machine, then [now1 - now0] is at least the idle duration
    of the window. *)
Theorem suspend_only_after_idle_duration
  (env : oracle) (sa : shut_args) (u0 u1 : Z) (w0 w1 : world)
  (now0 now1 planned : datetime) :
  valid_time (tod now0) = true -> valid_time (tod now1) = true ->
  timedelta_normalized (idle_duration sa) = true ->
  env (w_seq w0) datetime DtNow = inl now0 ->
  outcome (check_shutdown env sa u0 None) w0 = Done (Some planned) ->
  env (w_seq w1) datetime DtNow = inl now1 ->
  count is_suspend (emitted (check_shutdown env sa u1 (Some planned)) w1)
  = 1%nat ->
  timedelta_to_us (idle_duration sa)
  <= datetime_to_us now1 - datetime_to_us now0.
Proof.
  intros Hv0 Hv1 Hn Hc0 Harm Hc1 Hfire.
  apply check_shutdown_returns_planned in Harm.
  destruct Harm as [n0 [Hc0' Hadd]].
  assert (n0 = now0) by congruence. subst n0.
  destruct (datetime_add_us _ _ _ Hv0 Hn Hadd) as [Hvp Hus].
  apply (proj2 (check_shutdown_fires env sa u1 (Some planned) w1)) in Hfire.
  destruct Hfire as [p [n1 [Hp [_ [Hc1' [_ Hge]]]]]].
  injection Hp as <-. assert (n1 = now1) by congruence. subst n1.
  unfold datetime_ge in Hge. rewrite (datetime_cmp_us _ _ Hv1 Hvp) in Hge.
  destruct (Z.compare_spec (datetime_to_us now1) (datetime_to_us planned));
    [lia|discriminate|lia].
Qed.

Lemma suspend_only_after_idle_duration_witness :
  timedelta_to_us (idle_duration default_shut_args)
  <= datetime_to_us (at_time 2 35) - datetime_to_us (at_time 2 0).
Proof.
  apply (suspend_only_after_idle_duration
           (fun k T c => if Nat.eqb k 0
                         then steady (at_time 2 0) 5 k T c
                         else steady (at_time 2 35) 5 k T c)
           default_shut_args 5 5 world0 (mk_world 1 [])
           (at_time 2 0) (at_time 2 35) (at_time 2 30));
    reflexivity.
Defined.

(** *** The monitor as a whole *)

Lemma bind_not_done_l {A B} (c : M A) (k : A -> M B) (w : world) :
  (forall a, fst (c w) <> Done a) ->
  forall b, fst (bind c k w) <> Done b.
Proof.
  intros Hc b. cbn [bind Monad_M].
  destruct (c w) as [[a|e|] w1]; [now destruct (Hc a) | discriminate | discriminate].
Qed.

Lemma try_finally_not_done {A} (c : M A) (final : M unit) (w : world) :
  (forall a, fst (c w) <> Done a) ->
  forall a, fst (try_finally c final w) <> Done a.
Proof.
  intros Hc a. unfold try_finally.
  destruct (c w) as [[a'|e|] w1]; [now destruct (Hc a') | | discriminate].
  destruct (final w1) as [[u|e'|] w2]; discriminate.
Qed.

Lemma main_not_done (env : oracle) (fuel : nat) (ns : namespace) (w : world) :
  forall n, fst (main env fuel ns w) <> Done n.
Proof.
  unfold main.
  do 2 (apply bind_not_done; intros ? ? ?).
  match goal with
  | p : (namespace * option shut_args)%type |- _ => destruct p as [args sa]
  end.
  do 4 (apply bind_not_done; intros ? ? ?).
  apply bind_not_done_l. apply try_finally_not_done.
  unfold try_except_Exception. apply catch_not_done.
  - intros u. repeat (apply bind_not_done; intros ? ? ?).
    apply main_loop_not_done.
  - intros e ? ?. destruct (is_Exception e); discriminate.
Qed.

Lemma avoids_bind_post {A B} (p : event -> bool) (c : M A) (k : A -> M B)
      (Q : A -> Prop) :
  avoids p c ->
  (forall w a w', c w = (Done a, w') -> Q a) ->
  (forall a, Q a -> avoids p (k a)) ->
  avoids p (bind c k).
Proof.
  intros Hc HQ Hk w. destruct (Hc w) as [evs1 [T1 C1]].
  cbn [bind Monad_M].
  destruct (c w) as [[a|e|] w1] eqn:E; cbn [fst snd] in *.
  - destruct (Hk a (HQ _ _ _ E) w1) as [evs2 [T2 C2]].
    exists (evs1 ++ evs2)%list. split.
    + now rewrite T2, T1, app_assoc.
    + rewrite count_app. lia.
  - exists evs1. auto.
  - exists evs1. auto.
Qed.

Lemma avoids_try_finally {A} (p : event -> bool) (c : M A) (final : M unit) :
  avoids p c -> avoids p final -> avoids p (try_finally c final).
Proof.
  intros Hc Hf w. destruct (Hc w) as [evs1 [T1 C1]]. unfold try_finally.
  destruct (c w) as [[a|e|] w1]; cbn [fst snd] in *;
    [| |exists evs1; auto];
    destruct (Hf w1) as [evs2 [T2 C2]];
    exists (evs1 ++ evs2)%list;
    (split; [|rewrite count_app; lia]);
    destruct (final w1) as [[u|e'|] w2]; cbn [fst snd] in *;
    now rewrite T2, T1, app_assoc.
Qed.

Lemma main_loop_disabled_avoids (env : oracle) (args : namespace) :
  forall (fuel : nat) (ws : option datetime),
    avoids touches_arm (main_loop env fuel args None ws).
Proof.
  induction fuel as [|fuel IH]; intros ws.
  - apply avoids_out_of_fuel.
  - cbn [main_loop]. unfold get_data, print_data.
    repeat avoids_step. apply IH.
Qed.

(** X10: with an empty [--shutdown] the feature is off: whatever the GPU
    and the clock do, no run of the monitor plans a shutdown, logs an abort
    notice or suspends the machine. *)
Theorem disabled_never_suspends
  (env : oracle) (fuel : nat) (ns : namespace) (w : world) :
  shutdown ns = "" ->
  count touches_arm (emitted (main env fuel ns) w) = 0%nat
  /\ count is_suspend (emitted (main env fuel ns) w) = 0%nat.
Proof.
  intros Hoff.
  assert (Hav : avoids touches_arm (main env fuel ns)).
  { unfold main.
    apply (avoids_bind_post _ _ _ (fun r => r = PR_pair ns None)).
    - unfold parse_args. rewrite Hoff. apply avoids_ret.
    - intros w0 a w' E. unfold parse_args in E. rewrite Hoff in E.
      cbn in E. congruence.
    - intros r ->.
      apply (avoids_bind_post _ _ _ (fun a => a = (ns, None))).
      + apply avoids_ret.
      + intros w0 a w' E. cbn in E. congruence.
      + intros a ->.
        apply avoids_bind; [avoids_step|intros _].
        apply avoids_bind;
          [destruct (log_file ns); repeat avoids_step|intros _].
        apply avoids_bind; [avoids_step|intros _].
        apply avoids_bind; [avoids_step|intros _].
        apply avoids_bind; [|intros _; repeat avoids_step].
        apply avoids_try_finally; [|repeat avoids_step].
        unfold try_except_Exception. apply avoids_catch.
        * repeat avoids_step. apply main_loop_disabled_avoids.
        * intros e. destruct (is_Exception e); avoids_step. }
  destruct (Hav w) as [evs [T C]]. apply emitted_of_trace in T. rewrite T.
  split; [exact C|].
  clear -C. unfold count, touches_arm in *.
  induction evs as [|ev evs IH]; [reflexivity|].
  simpl in *. destruct (is_suspend ev); simpl in *; [discriminate|].
  destruct (is_arming ev || is_abort_notice ev); simpl in *;
    [discriminate|auto].
Qed.

Lemma disabled_never_suspends_witness :
  count is_suspend
    (emitted (main (steady (at_time 2 35) 0) 3 (default_namespace "")) world0)
  = 0%nat.
Proof.
  apply (disabled_never_suspends (steady (at_time 2 35) 0) 3
                                 (default_namespace "") world0).
  reflexivity.
Defined.

Lemma main_loop_avoids_epilogue
  (env : oracle) (args : namespace) (sa : option shut_args) :
  forall (fuel : nat) (ws : option datetime),
    avoids is_epilogue (main_loop env fuel args sa ws).
Proof.
  induction fuel as [|fuel IH]; intros ws.
  - apply avoids_out_of_fuel.
  - cbn [main_loop]. unfold get_data, print_data, check_shutdown, do_shutdown.
    repeat avoids_step; apply IH.
Qed.

(** X9: from the Namespace on, [main] never returns: the [while True] loop
    has no exit, so the three statements after the [try] are out of reach.
    In every run no value is returned, the record "done." is never logged
    and [logging.shutdown()] is never called; a run that has ended has ended
    with an exception. *)
Theorem main_never_returns
  (env : oracle) (fuel : nat) (ns : namespace) (w : world) :
  (forall n, outcome (main env fuel ns) w <> Done n)
  /\ (outcome (main env fuel ns) w = Running
      \/ exists e, outcome (main env fuel ns) w = Raised e)
  /\ count is_epilogue (emitted (main env fuel ns) w) = 0%nat.
Proof.
  split; [apply main_not_done|]. split.
  - pose proof (main_not_done env fuel ns w) as H. unfold outcome.
    destruct (main env fuel ns w) as [[n|e|] w1]; cbn [fst] in *;
      [now destruct (H n) | right; eauto | now left].
  - assert (Hav : avoids is_epilogue (main env fuel ns)).
    { unfold main.
      apply avoids_bind; [unfold parse_args; repeat avoids_step|intros r].
      apply avoids_bind; [destruct r; avoids_step|intros [args sa]].
      apply avoids_bind; [avoids_step|intros _].
      apply avoids_bind;
        [destruct (log_file args); repeat avoids_step|intros _].
      apply avoids_bind; [avoids_step|intros _].
      apply avoids_bind; [avoids_step|intros _].
      apply (avoids_bind_post _ _ _ (fun _ => False)).
      - apply avoids_try_finally; [|repeat avoids_step].
        unfold try_except_Exception. apply avoids_catch.
        + repeat avoids_step. apply main_loop_avoids_epilogue.
        + intros e. destruct (is_Exception e); avoids_step.
      - intros w0 a w' E.
        assert (H := f_equal fst E). cbn [fst] in H. revert H.
        apply try_finally_not_done.
        intros u. unfold try_except_Exception. apply catch_not_done.
        + intros b. repeat (apply bind_not_done; intros ? ? ?).
          apply main_loop_not_done.
        + intros e ? ?. destruct (is_Exception e); discriminate.
      - intros a []. }
    destruct (Hav w) as [evs [T C]]. apply emitted_of_trace in T.
    now rewrite T.
Qed.

(** *** No suspend without a planned shutdown *)

Lemma run_arm_app (armed : bool) (xs ys : list event) :
  run_arm armed (xs ++ ys)
  = match run_arm armed xs with
    | Some armed' => run_arm armed' ys
    | None => None
    end.
Proof.
  revert armed. induction xs as [|x xs IH]; intros armed; [reflexivity|].
  simpl. destruct (arm_step armed x); [apply IH | reflexivity].
Qed.

Lemma run_arm_neutral (armed : bool) (evs : list event) :
  count touches_arm evs = 0%nat -> run_arm armed evs = Some armed.
Proof.
  unfold count. induction evs as [|ev evs IH]; [reflexivity|].
  simpl. destruct (touches_arm ev) eqn:Ht; [discriminate|].
  intros H. unfold arm_step. unfold touches_arm in Ht.
  apply orb_false_iff in Ht. destruct Ht as [Ht Ha].
  apply orb_false_iff in Ht. destruct Ht as [Hs Hg].
  rewrite Hs, Hg, Ha. auto.
Qed.

Lemma armed_of_avoids {A} (armed : bool) (c : M A) :
  avoids touches_arm c -> armed_run armed c (fun _ armed' => armed' = armed).
Proof.
  intros Hc w. destruct (Hc w) as [evs [T C]].
  exists evs, armed. split; [exact T|]. split; [|reflexivity].
  now apply run_arm_neutral.
Qed.

Lemma armed_bind {A B} (armed : bool) (c : M A) (k : A -> M B)
      (Q : res A -> bool -> Prop) :
  armed_run armed c Q ->
  (forall a armed1, Q (Done a) armed1 ->
                    armed_run armed1 (k a) (fun _ _ => True)) ->
  armed_run armed (bind c k) (fun _ _ => True).
Proof.
  intros Hc Hk w. destruct (Hc w) as [evs1 [b1 [T1 [R1 Q1]]]].
  cbn [bind Monad_M].
  destruct (c w) as [[a|e|] w1]; cbn [fst snd] in *.
  - destruct (Hk a b1 Q1 w1) as [evs2 [b2 [T2 [R2 _]]]].
    exists (evs1 ++ evs2)%list, b2. split; [now rewrite T2, T1, app_assoc|].
    split; [|exact I]. now rewrite run_arm_app, R1.
  - exists evs1, b1. auto.
  - exists evs1, b1. auto.
Qed.

Lemma armed_weaken {A} (armed : bool) (c : M A) (Q : res A -> bool -> Prop) :
  armed_run armed c Q -> armed_run armed c (fun _ _ => True).
Proof.
  intros Hc w. destruct (Hc w) as [evs [b [T [R _]]]]. exists evs, b. auto.
Qed.

Lemma armed_catch {A} (armed : bool) (c : M A) (h : exn -> M A) :
  armed_run armed c (fun _ _ => True) ->
  (forall e, avoids touches_arm (h e)) ->
  armed_run armed (catch c h) (fun _ _ => True).
Proof.
  intros Hc Hh w. destruct (Hc w) as [evs1 [b1 [T1 [R1 _]]]].
  cbn [catch MonadExc_M].
  destruct (c w) as [[a|e|] w1]; cbn [fst snd] in *;
    [exists evs1, b1; auto| |exists evs1, b1; auto].
  destruct (Hh e w1) as [evs2 [T2 C2]].
  exists (evs1 ++ evs2)%list, b1. split; [now rewrite T2, T1, app_assoc|].
  split; [|exact I]. rewrite run_arm_app, R1. now apply run_arm_neutral.
Qed.

Lemma armed_try_finally {A} (armed : bool) (c : M A) (final : M unit) :
  armed_run armed c (fun _ _ => True) ->
  avoids touches_arm final ->
  armed_run armed (try_finally c final) (fun _ _ => True).
Proof.
  intros Hc Hf w. destruct (Hc w) as [evs1 [b1 [T1 [R1 _]]]].
  unfold try_finally.
  destruct (c w) as [[a|e|] w1]; cbn [fst snd] in *;
    [| |exists evs1, b1; auto];
    destruct (Hf w1) as [evs2 [T2 C2]];
    exists (evs1 ++ evs2)%list, b1;
    (split; [|split; [|exact I];
              rewrite run_arm_app, R1; now apply run_arm_neutral]);
    destruct (final w1) as [[u|e'|] w2]; cbn [fst snd] in *;
    now rewrite T2, T1, app_assoc.
Qed.

(** One evaluation of the policy: started with the bit set whenever a
    shutdown is pending, it leaves the bit set whenever it returns one. *)
Lemma check_shutdown_armed
  (env : oracle) (sa : shut_args) (gpu_usage : Z)
  (planned_shut : option datetime) (armed : bool) :
  (planned_shut <> None -> armed = true) ->
  armed_run armed (check_shutdown env sa gpu_usage planned_shut)
            (fun r armed' => forall t, r = Done (Some t) -> armed' = true).
Proof.
  intros Hinv w.
  destruct (check_shutdown_cases env sa gpu_usage planned_shut w)
    as [[Hb E] | [[Hi [e [Hc E]]]
                 | [[Hi [now [n [Hc [Hin E]]]]] | [Hi [now [Hc [Hin E]]]]]]];
    rewrite E; clear E; cbn [fst snd w_trace].
  - destruct planned_shut; eexists _, _;
      (split; [reflexivity|]); (split; [reflexivity|discriminate]).
  - eexists _, _. split; [reflexivity|]. split; [reflexivity|discriminate].
  - destruct n, planned_shut; eexists _, _;
      (split; [reflexivity|]); (split; [reflexivity|discriminate]).
  - unfold in_range_step. destruct planned_shut as [planned|].
    + rewrite (Hinv ltac:(discriminate)).
      destruct (datetime_lt now planned); cbn [fst snd w_trace];
        rewrite <- app_assoc; eexists _, _;
        (split; [reflexivity|]); (split; [reflexivity|]).
      * reflexivity.
      * intros t.
        destruct (env (S (w_seq w)) Z (SubprocessCall ["systemctl"; "suspend"]));
          discriminate.
    + cbn [fst snd w_trace]. rewrite <- app_assoc.
      exists [EvCall DtNow;
              EvLog INFO "GPU now idle, will shutdown in {0} if this stays"
                    [ATimedelta (idle_duration sa)]], true.
      split; [reflexivity|]. split; [now destruct armed|reflexivity].
Qed.

Lemma main_loop_armed
  (env : oracle) (args : namespace) (sa : option shut_args) :
  forall (fuel : nat) (ws : option datetime) (armed : bool),
    (ws <> None -> armed = true) ->
    armed_run armed (main_loop env fuel args sa ws) (fun _ _ => True).
Proof.
  induction fuel as [|fuel IH]; intros ws armed Hinv.
  - apply (armed_weaken _ _ (fun _ b => b = armed)).
    apply armed_of_avoids. apply avoids_out_of_fuel.
  - cbn [main_loop].
    eapply armed_bind; [apply armed_of_avoids; avoids_step|].
    intros h ? ->.
    eapply armed_bind;
      [apply armed_of_avoids; unfold get_data; repeat avoids_step|].
    intros d ? ->.
    eapply armed_bind
      with (Q := fun r armed' => forall t, r = Done (Some t) -> armed' = true).
    { destruct sa as [sa'|].
      - now apply check_shutdown_armed.
      - intros w. exists [], armed. cbn. rewrite app_nil_r.
        repeat split. intros t [= ->]. apply Hinv. discriminate. }
    intros ws' armed1 Hws.
    eapply armed_bind;
      [apply armed_of_avoids; unfold print_data; repeat avoids_step|].
    intros _ ? ->.
    eapply armed_bind; [apply armed_of_avoids; avoids_step|].
    intros _ ? ->.
    apply IH. intros Hne. destruct ws' as [t|]; [|congruence].
    now apply (Hws t).
Qed.

Lemma main_armed (env : oracle) (fuel : nat) (ns : namespace) :
  armed_run false (main env fuel ns) (fun _ _ => True).
Proof.
  unfold main.
  eapply armed_bind;
    [apply armed_of_avoids; unfold parse_args; repeat avoids_step|].
  intros r ? ->.
  eapply armed_bind; [apply armed_of_avoids; destruct r; avoids_step|].
  intros [args sa] ? ->.
  eapply armed_bind; [apply armed_of_avoids; avoids_step|].
  intros _ ? ->.
  eapply armed_bind;
    [apply armed_of_avoids; destruct (log_file args); repeat avoids_step|].
  intros _ ? ->.
  eapply armed_bind; [apply armed_of_avoids; avoids_step|].
  intros _ ? ->.
  eapply armed_bind; [apply armed_of_avoids; avoids_step|].
  intros _ ? ->.
  eapply armed_bind with (Q := fun _ _ => True).
  - apply armed_try_finally; [|repeat avoids_step].
    unfold try_except_Exception. apply armed_catch.
    + eapply armed_bind; [apply armed_of_avoids; avoids_step|].
      intros _ ? ->.
      eapply armed_bind; [apply armed_of_avoids; avoids_step|].
      intros _ ? ->.
      eapply armed_bind; [apply armed_of_avoids; avoids_step|].
      intros cnt ? ->.
      eapply armed_bind; [apply armed_of_avoids; avoids_step|].
      intros _ ? ->.
      apply main_loop_armed. congruence.
    + intros e. destruct (is_Exception e); avoids_step.
  - intros u armed1 _.
    apply (armed_weaken _ _ (fun _ b => b = armed1)).
    apply armed_of_avoids. repeat avoids_step.
Qed.

(** X11: in every run of the monitor, whatever the collaborators answer,
    each call of [systemctl suspend] comes after a record "GPU now idle,
    will shutdown in ..." with neither an abort notice nor another suspend
    call in between: the machine is never suspended without a shutdown
    having been announced and not called off. *)
Theorem suspend_only_when_armed
  (env : oracle) (fuel : nat) (ns : namespace) (w : world) :
  exists armed,
    run_arm false (emitted (main env fuel ns) w) = Some armed.
Proof.
  destruct (main_armed env fuel ns w) as [evs [armed [T [R _]]]].
  apply emitted_of_trace in T. rewrite T. eauto.
Qed.

Example run_arm_faults :
  run_arm false [EvCall (SubprocessCall ["systemctl"; "suspend"])] = None
  /\ run_arm false
       [EvLog INFO "GPU now idle, will shutdown in {0} if this stays"
              [ATimedelta (mk_timedelta 0 1800 0)];
        EvLog INFO "GPU now busy again, shutdown aborted" [];
        EvCall (SubprocessCall ["systemctl"; "suspend"])] = None.
Proof. split; reflexivity. Qed.

(** *** The NVML session is opened once, before any other NVML call *)

Section StartsWith.

Variable env : oracle.
Variable p : event -> bool.

Lemma starts_emit_bind {B} (ev : event) (evs : list event) (k : unit -> M B) :
  starts_with evs p (k tt) ->
  starts_with (ev :: evs) p (bind (emit ev) k).
Proof.
  intros Hk w. cbn [bind Monad_M emit].
  destruct (Hk (mk_world (w_seq w) (w_trace w ++ [ev]))) as [rest [T C]].
  exists rest. split; [|exact C].
  rewrite T. cbn [w_trace]. now rewrite <- app_assoc.
Qed.

Lemma starts_ext_bind {T B} (c : call T) (k : T -> M B) :
  (forall v, avoids p (k v)) ->
  starts_with [EvCall c] p (bind (ext env c) k).
Proof.
  intros Hk w. cbn [bind Monad_M]. unfold ext.
  destruct (env (w_seq w) T c) as [v|e].
  - destruct (Hk v (mk_world (S (w_seq w)) (w_trace w ++ [EvCall c])))
      as [rest [T1 C]].
    exists rest. split; [|exact C]. rewrite T1. cbn [w_trace].
    now rewrite <- app_assoc.
  - exists []. split; [reflexivity|reflexivity].
Qed.

Lemma starts_bind {A B} (evs : list event) (c : M A) (k : A -> M B) :
  starts_with evs p c -> (forall a, avoids p (k a)) ->
  starts_with evs p (bind c k).
Proof.
  intros Hc Hk w. destruct (Hc w) as [rest1 [T1 C1]].
  cbn [bind Monad_M].
  destruct (c w) as [[a|e|] w1]; cbn [fst snd] in *;
    [|exists rest1; auto|exists rest1; auto].
  destruct (Hk a w1) as [evs2 [T2 C2]].
  exists (rest1 ++ evs2)%list. split.
  - now rewrite T2, T1, <- !app_assoc.
  - rewrite count_app. lia.
Qed.

Lemma starts_catch {A} (evs : list event) (c : M A) (h : exn -> M A) :
  starts_with evs p c -> (forall e, avoids p (h e)) ->
  starts_with evs p (catch c h).
Proof.
  intros Hc Hh w. destruct (Hc w) as [rest1 [T1 C1]].
  cbn [catch MonadExc_M].
  destruct (c w) as [[a|e|] w1]; cbn [fst snd] in *;
    [exists rest1; auto| |exists rest1; auto].
  destruct (Hh e w1) as [evs2 [T2 C2]].
  exists (rest1 ++ evs2)%list. split.
  - now rewrite T2, T1, <- !app_assoc.
  - rewrite count_app. lia.
Qed.

Lemma starts_try_finally {A} (evs : list event) (c : M A) (final : M unit) :
  starts_with evs p c -> avoids p final ->
  starts_with evs p (try_finally c final).
Proof.
  intros Hc Hf w. destruct (Hc w) as [rest1 [T1 C1]]. unfold try_finally.
  destruct (c w) as [[a|e|] w1]; cbn [fst snd] in *;
    [| |exists rest1; auto];
    destruct (Hf w1) as [evs2 [T2 C2]];
    exists (rest1 ++ evs2)%list;
    (split; [|rewrite count_app; lia]);
    destruct (final w1) as [[u|e'|] w2]; cbn [fst snd] in *;
    now rewrite T2, T1, <- !app_assoc.
Qed.

End StartsWith.

Lemma main_loop_avoids_init
  (env : oracle) (args : namespace) (sa : option shut_args) :
  forall (fuel : nat) (ws : option datetime),
    avoids is_nvmlInit (main_loop env fuel args sa ws).
Proof.
  induction fuel as [|fuel IH]; intros ws.
  - apply avoids_out_of_fuel.
  - cbn [main_loop]. unfold get_data, print_data, check_shutdown, do_shutdown.
    repeat avoids_step; apply IH.
Qed.

Lemma try_block_starts
  (env : oracle) (fuel : nat) (args : namespace) (sa : option shut_args) :
  starts_with startup is_nvmlInit
    (try_finally
       (try_except_Exception
          (log DEBUG "initializing nvml" [] ;;
           ext env NvmlInit ;;
           device_count <- ext env NvmlDeviceGetCount ;;
           log DEBUG "found %i gpus" [AInt device_count] ;;
           main_loop env fuel args sa None)
          (fun e => raise e))
       (log DEBUG "shutting down nvml" [] ;;
        ext env NvmlShutdown) ;;
     log DEBUG "done." [] ;;
     emit EvLoggingShutdown ;;
     ret 0).
Proof.
  apply starts_bind; [|intros _; repeat avoids_step].
  apply starts_try_finally; [|repeat avoids_step].
  unfold try_except_Exception.
  apply starts_catch; [|intros e; destruct (is_Exception e); avoids_step].
  unfold startup, log. apply starts_emit_bind. apply starts_ext_bind.
  intros _. repeat avoids_step. apply main_loop_avoids_init.
Qed.

Lemma opened_bind {A} (c : M A) (k : A -> M Z) :
  avoids is_nvml_call c ->
  (forall a w, exists evs,
      w_trace (snd (k a w)) = (w_trace w ++ evs)%list
      /\ session_opened_once evs) ->
  forall w, exists evs,
    w_trace (snd (bind c k w)) = (w_trace w ++ evs)%list
    /\ session_opened_once evs.
Proof.
  intros Hc Hk w. destruct (Hc w) as [evs1 [T1 C1]].
  cbn [bind Monad_M].
  destruct (c w) as [[a|e|] w1]; cbn [fst snd] in *.
  - destruct (Hk a w1) as [evs2 [T2 [pre [rest [E [Cp Hr]]]]]].
    exists (evs1 ++ evs2)%list. split; [now rewrite T2, T1, app_assoc|].
    exists (evs1 ++ pre)%list, rest. split; [now rewrite E, app_assoc|].
    split; [rewrite count_app; lia|exact Hr].
  - exists evs1. split; [exact T1|].
    exists evs1, []. rewrite app_nil_r. auto.
  - exists evs1. split; [exact T1|].
    exists evs1, []. rewrite app_nil_r. auto.
Qed.

(** X12: in every run of the monitor no NVML call is made before
    [nvmlInit], and [nvmlInit] is called at most once: the events are some
    that touch NVML not at all, then, if the run gets that far, the debug
    record "initializing nvml", [nvmlInit], and events without another
    [nvmlInit]. *)
Theorem nvml_session_opened_once
  (env : oracle) (fuel : nat) (ns : namespace) (w : world) :
  session_opened_once (emitted (main env fuel ns) w).
Proof.
  assert (H : exists evs,
             w_trace (snd (main env fuel ns w)) = (w_trace w ++ evs)%list
             /\ session_opened_once evs).
  { revert w. unfold main.
    apply opened_bind; [unfold parse_args; repeat avoids_step|intros r].
    apply opened_bind; [destruct r; avoids_step|intros [args sa]].
    apply opened_bind; [avoids_step|intros _].
    apply opened_bind;
      [destruct (log_file args); repeat avoids_step|intros _].
    apply opened_bind; [avoids_step|intros _].
    apply opened_bind; [avoids_step|intros _].
    intros w. destruct (try_block_starts env fuel args sa w) as [rest [T C]].
    exists (startup ++ rest)%list. split; [exact T|].
    exists [], (startup ++ rest)%list. split; [reflexivity|].
    split; [reflexivity|]. right. exists rest. auto. }
  destruct H as [evs [T S]]. apply emitted_of_trace in T. now rewrite T.
Qed.

(** *** One status line for each sleep *)

Lemma count_tick_zero (evs : list event) :
  count is_tick evs = 0%nat ->
  count is_status evs = 0%nat /\ count is_sleep evs = 0%nat.
Proof.
  unfold count, is_tick. induction evs as [|ev evs IH]; [auto|].
  simpl. destruct (is_status ev), (is_sleep ev); simpl;
    try discriminate; exact IH.
Qed.

Lemma balanced_of_avoids {A} (c : M A) : avoids is_tick c -> balanced c.
Proof.
  intros Hc w. destruct (Hc w) as [evs [T C]]. exists evs.
  split; [exact T|]. apply count_tick_zero in C. lia.
Qed.

Lemma balanced_bind {A B} (c : M A) (k : A -> M B) :
  balanced c -> (forall a, balanced (k a)) -> balanced (bind c k).
Proof.
  intros Hc Hk w. destruct (Hc w) as [evs1 [T1 C1]].
  cbn [bind Monad_M].
  destruct (c w) as [[a|e|] w1]; cbn [fst snd] in *;
    [|exists evs1; auto|exists evs1; auto].
  destruct (Hk a w1) as [evs2 [T2 C2]].
  exists (evs1 ++ evs2)%list. split; [now rewrite T2, T1, app_assoc|].
  rewrite !count_app. lia.
Qed.

Lemma balanced_catch {A} (c : M A) (h : exn -> M A) :
  balanced c -> (forall e, balanced (h e)) -> balanced (catch c h).
Proof.
  intros Hc Hh w. destruct (Hc w) as [evs1 [T1 C1]].
  cbn [catch MonadExc_M].
  destruct (c w) as [[a|e|] w1]; cbn [fst snd] in *;
    [exists evs1; auto| |exists evs1; auto].
  destruct (Hh e w1) as [evs2 [T2 C2]].
  exists (evs1 ++ evs2)%list. split; [now rewrite T2, T1, app_assoc|].
  rewrite !count_app. lia.
Qed.

Lemma balanced_try_finally {A} (c : M A) (final : M unit) :
  balanced c -> balanced final -> balanced (try_finally c final).
Proof.
  intros Hc Hf w. destruct (Hc w) as [evs1 [T1 C1]]. unfold try_finally.
  destruct (c w) as [[a|e|] w1]; cbn [fst snd] in *;
    [| |exists evs1; auto];
    destruct (Hf w1) as [evs2 [T2 C2]];
    exists (evs1 ++ evs2)%list;
    (split; [|rewrite !count_app; lia]);
    destruct (final w1) as [[u|e'|] w2]; cbn [fst snd] in *;
    now rewrite T2, T1, app_assoc.
Qed.

(** The end of an iteration: the status line, then the sleep, whether it
    returns or is interrupted. *)
Lemma balanced_tick {B} (env : oracle) (d : data) (i : Z)
      (ws : option datetime) (q : Q) (rest : M B) :
  d_gpu_idx d = Some i -> balanced rest ->
  balanced (print_data d ws ;; ext env (Sleep q) ;; rest).
Proof.
  intros Hidx Hrest w. unfold print_data. rewrite Hidx.
  unfold log, emit, ext. cbn [bind Monad_M w_seq w_trace].
  destruct (env (w_seq w) unit (Sleep q)) as [[]|e].
  - match goal with
    | |- context [rest ?w1] => destruct (Hrest w1) as [evs [T C]]
    end.
    eexists (_ :: _ :: evs). split.
    + rewrite T. cbn [w_trace]. rewrite <- !app_assoc. reflexivity.
    + unfold count in *. simpl. lia.
  - eexists [_; _]. split.
    + cbn [fst snd w_trace]. rewrite <- !app_assoc. reflexivity.
    + reflexivity.
Qed.

Lemma main_loop_balanced
  (env : oracle) (args : namespace) (sa : option shut_args) :
  forall (fuel : nat) (ws : option datetime),
    balanced (main_loop env fuel args sa ws).
Proof.
  induction fuel as [|fuel IH]; intros ws.
  - apply balanced_of_avoids. apply avoids_out_of_fuel.
  - cbn [main_loop].
    apply balanced_bind; [apply balanced_of_avoids; avoids_step|intros h].
    apply balanced_bind;
      [apply balanced_of_avoids; unfold get_data; repeat avoids_step|intros d].
    apply balanced_bind.
    { apply balanced_of_avoids. destruct sa; [|apply avoids_ret].
      unfold check_shutdown, do_shutdown. repeat avoids_step. }
    intros ws'.
    apply (balanced_tick env _ (gpu_index args)); [reflexivity|apply IH].
Qed.

(** X13: in every run of the monitor, finished or not, the number of status
    lines logged by [print_data] equals the number of calls of [sleep]: each
    iteration that logs its status line goes on to sleep, and nothing else
    sleeps or logs a status line. *)
Theorem one_status_line_per_sleep
  (env : oracle) (fuel : nat) (ns : namespace) (w : world) :
  count is_status (emitted (main env fuel ns) w)
  = count is_sleep (emitted (main env fuel ns) w).
Proof.
  assert (H : balanced (main env fuel ns)).
  { unfold main.
    apply balanced_bind;
      [apply balanced_of_avoids; unfold parse_args; repeat avoids_step
      |intros r].
    apply balanced_bind;
      [apply balanced_of_avoids; destruct r; avoids_step|intros [args sa]].
    apply balanced_bind; [apply balanced_of_avoids; avoids_step|intros _].
    apply balanced_bind;
      [apply balanced_of_avoids; destruct (log_file args); repeat avoids_step
      |intros _].
    apply balanced_bind; [apply balanced_of_avoids; avoids_step|intros _].
    apply balanced_bind; [apply balanced_of_avoids; avoids_step|intros _].
    apply balanced_bind;
      [|intros _; apply balanced_of_avoids; repeat avoids_step].
    apply balanced_try_finally;
      [|apply balanced_of_avoids; repeat avoids_step].
    unfold try_except_Exception. apply balanced_catch.
    - apply balanced_bind; [apply balanced_of_avoids; avoids_step|intros _].
      apply balanced_bind; [apply balanced_of_avoids; avoids_step|intros _].
      apply balanced_bind; [apply balanced_of_avoids; avoids_step|intros cnt].
      apply balanced_bind; [apply balanced_of_avoids; avoids_step|intros _].
      apply main_loop_balanced.
    - intros e. apply balanced_of_avoids.
      destruct (is_Exception e); avoids_step. }
  destruct (H w) as [evs [T C]]. apply emitted_of_trace in T. now rewrite T.
Qed.

(** *** Where the exceptions come from *)

Section RaisesOnly.

Variable env : oracle.










End RaisesOnly.






(** *** A failing teardown hides the error that ended the loop *)

Lemma teardown_wins_bind (env : oracle) {A} (c : M A) (k : A -> M Z) :
  avoids is_nvml_bracket c ->
  (forall a w, exists evs,
      w_trace (snd (k a w)) = (w_trace w ++ evs)%list
      /\ teardown_error_wins env (fst (k a w)) (snd (k a w)) evs) ->
  forall w, exists evs,
    w_trace (snd (bind c k w)) = (w_trace w ++ evs)%list
    /\ teardown_error_wins env (fst (bind c k w)) (snd (bind c k w)) evs.
Proof.
  intros Hc Hk w. destruct (Hc w) as [evs1 [T1 C1]].
  cbn [bind Monad_M].
  destruct (c w) as [[a|e|] w1]; cbn [fst snd] in *.
  - destruct (Hk a w1) as [evs2 [T2 S2]].
    exists (evs1 ++ evs2)%list. split; [now rewrite T2, T1, app_assoc|].
    destruct S2 as [R | [Z0 | Hm]].
    + now left.
    + right. left. rewrite count_app. lia.
    + right. right. exact Hm.
  - exists evs1. split; [exact T1|]. right. now left.
  - exists evs1. split; [exact T1|]. now left.
Qed.

Lemma try_block_teardown_wins
  (env : oracle) (fuel : nat) (args : namespace) (sa : option shut_args)
  (w : world) :
  teardown_error_wins env
    (fst ((try_finally
             (try_except_Exception
                (log DEBUG "initializing nvml" [] ;;
                 ext env NvmlInit ;;
                 device_count <- ext env NvmlDeviceGetCount ;;
                 log DEBUG "found %i gpus" [AInt device_count] ;;
                 main_loop env fuel args sa None)
                (fun e => raise e))
             (log DEBUG "shutting down nvml" [] ;;
              ext env NvmlShutdown) ;;
           log DEBUG "done." [] ;;
           emit EvLoggingShutdown ;;
           ret 0) w))
    (snd ((try_finally
             (try_except_Exception
                (log DEBUG "initializing nvml" [] ;;
                 ext env NvmlInit ;;
                 device_count <- ext env NvmlDeviceGetCount ;;
                 log DEBUG "found %i gpus" [AInt device_count] ;;
                 main_loop env fuel args sa None)
                (fun e => raise e))
             (log DEBUG "shutting down nvml" [] ;;
              ext env NvmlShutdown) ;;
           log DEBUG "done." [] ;;
           emit EvLoggingShutdown ;;
           ret 0) w))
    [EvCall NvmlShutdown].
Proof.
  set (body := try_except_Exception _ _).
  assert (Hnd : forall u, fst (body w) <> Done u).
  { intros u. unfold body, try_except_Exception.
    apply catch_not_done.
    - intros b. repeat (apply bind_not_done; intros ? ? ?).
      apply main_loop_not_done.
    - intros e w1 b. destruct (is_Exception e); discriminate. }
  cbn [bind Monad_M]. unfold try_finally.
  destruct (body w) as [[u|e|] w1]; cbn [fst snd] in *.
  - now destruct (Hnd u).
  - unfold log, emit, ext. cbn.
    destruct (env (w_seq w1) unit NvmlShutdown) as [[]|e''] eqn:E; cbn.
    + right. right. intros e' He'. cbn in He'. congruence.
    + right. right. intros e' He'. cbn in He'. congruence.
  - now left.
Qed.

(** X15: an exception raised by [nvmlShutdown] in the [finally] clause
    replaces the one that ended the loop.  In a finished run that opened
    the NVML session, if the last call, [nvmlShutdown], is answered with an
    exception, then that exception is what leaves [main]. *)
Theorem teardown_error_masks
  (env : oracle) (fuel : nat) (ns : namespace) (w : world) (e' : exn) :
  outcome (main env fuel ns) w <> Running ->
  In (EvCall NvmlInit) (emitted (main env fuel ns) w) ->
  env (Nat.pred (w_seq (snd (main env fuel ns w)))) unit NvmlShutdown
  = inr e' ->
  outcome (main env fuel ns) w = Raised e'.
Proof.
  intros Hend Hinit Hsd.
  assert (H : exists evs,
             w_trace (snd (main env fuel ns w)) = (w_trace w ++ evs)%list
             /\ teardown_error_wins env (fst (main env fuel ns w))
                                    (snd (main env fuel ns w)) evs).
  { clear. revert w. unfold main.
    apply teardown_wins_bind; [apply parse_args_avoids|intros r].
    apply teardown_wins_bind; [destruct r; avoids_step|intros [args sa]].
    apply teardown_wins_bind; [avoids_step|intros _].
    apply teardown_wins_bind;
      [destruct (log_file args); repeat avoids_step|intros _].
    apply teardown_wins_bind; [avoids_step|intros _].
    apply teardown_wins_bind; [avoids_step|intros _].
    intros w.
    destruct (try_block_closes_session env fuel args sa w) as [evs [T _]].
    exists evs. split; [exact T|].
    destruct (try_block_teardown_wins env fuel args sa w) as [R | [Z0 | Hm]].
    - now left.
    - discriminate.
    - right. right. exact Hm. }
  destruct H as [evs [T S]]. apply emitted_of_trace in T. rewrite T in Hinit.
  destruct S as [R | [Z0 | Hm]].
  - contradiction.
  - exfalso. revert Z0.
    apply (count_zero_not_in is_nvml_bracket (EvCall NvmlInit));
      [reflexivity|exact Hinit].
  - apply Hm. exact Hsd.
Qed.

Lemma teardown_error_masks_witness :
  outcome (main (fun k T c =>
                   match c in call T return T + exn with
                   | NvmlDeviceGetCount => inr (NVMLError 999)
                   | NvmlShutdown => inr (NVMLError 1)
                   | c' => steady (at_time 2 0) 5 k _ c'
                   end)
                1 (default_namespace SHUT_ARGS_DEFAULT)) world0
  = Raised (NVMLError 1).
Proof.
  apply (teardown_error_masks
           (fun k T c =>
              match c in call T return T + exn with
              | NvmlDeviceGetCount => inr (NVMLError 999)
              | NvmlShutdown => inr (NVMLError 1)
              | c' => steady (at_time 2 0) 5 k _ c'
              end)
           1 (default_namespace SHUT_ARGS_DEFAULT) world0 (NVMLError 1)).
  - vm_compute. discriminate.
  - vm_compute. do 5 right. left. reflexivity.
  - reflexivity.
Defined.
